(** * wavelink/websocket.py: the node connection, its message pump and dispatcher

    A shallow embedding of [WebSocket] (src/wavelink/websocket.py).  The
    object's attributes and the node's are fields of records, every call that
    leaves the class (the transport, the bot's [dispatch], the logger, the
    event loop) is recorded in a trace, and coroutines are state-and-exception
    passing functions that run from one suspension point to the next.  The
    event loop holds the suspended coroutines; what the transport and the peer
    answer at each suspension point is an input of the run. *)

From stdpp Require Import base gmap strings list pretty.
From Stdlib Require Import ZArith Lia Sorted.

Open Scope Z_scope.

(** ** Python values found in frames and attributes *)

(** JSON numbers are restricted to integers; floats are not represented.
    [VPlayer g] is a reference to the player object registered for guild [g]
    (what [data['player'] = ...] stores in the frame). *)
#[local] Set Warnings "-register-all".
Inductive pyval :=
| VNone
| VBool (b : bool)
| VInt (z : Z)
| VStr (s : string)
| VList (l : list pyval)
| VDict (d : list (string * pyval))
| VPlayer (guild : Z).

(** A decoded frame, and the keyword arguments of [_send]: [Dict[str, Any]]. *)
Abbreviation frame := (gmap string pyval).

(** Python truthiness, as used by [if not op]. *)
Definition truthy (v : pyval) : bool :=
  match v with
  | VNone => false
  | VBool b => b
  | VInt z => negb (z =? 0)
  | VStr s => negb (String.eqb s "")
  | VList l => match l with [] => false | _ => true end
  | VDict d => match d with [] => false | _ => true end
  | VPlayer _ => true
  end.

(** [v == 'literal'] for a string literal on the right. *)
Definition eq_str (v : pyval) (s : string) : bool :=
  match v with
  | VStr s' => String.eqb s' s
  | _ => false
  end.

(** [data.get(key, None)] *)
Definition dict_get (data : frame) (key : string) : pyval :=
  default VNone (data !! key).

(** ** Exceptions and the state-and-exception monad *)

(** The exception classes the code can meet, all deriving from [Exception].
    [OtherException cls] stands for any class that is none of the others
    (and no subclass of [KeyError]). *)
Inductive exn :=
| KeyError
| ValueError
| TypeError
| AttributeError
| UnicodeDecodeError
| WSServerHandshakeError (status : Z)
| OtherException (cls : string).

Definition is_KeyError (e : exn) : bool :=
  match e with KeyError => true | _ => false end.

Inductive outcome (A : Type) :=
| Returned (a : A)
| Raised (e : exn).
Arguments Returned {A} a.
Arguments Raised {A} e.

(** A computation over a state [S]: it returns or raises, and the state it
    leaves behind is kept in both cases, as Python keeps mutations made
    before an exception. *)
Definition M (S A : Type) : Type := S -> outcome A * S.

Definition ret {S A} (a : A) : M S A := fun s => (Returned a, s).

Definition raise {S A} (e : exn) : M S A := fun s => (Raised e, s).

Definition bind {S A B} (m : M S A) (k : A -> M S B) : M S B :=
  fun s =>
    match m s with
    | (Returned a, s') => k a s'
    | (Raised e, s') => (Raised e, s')
    end.

Definition gets {S A} (f : S -> A) : M S A := fun s => (Returned (f s), s).

Definition modify {S} (f : S -> S) : M S unit := fun s => (Returned tt, f s).

(** A pure operation that may raise. *)
Definition lift {S A} (r : outcome A) : M S A := fun s => (r, s).

(** [try: body  except <classes accepted by catches> as e: handler e] *)
Definition try_except {S A} (body : M S A) (catches : exn -> bool)
    (handler : exn -> M S A) : M S A :=
  fun s =>
    match body s with
    | (Returned a, s') => (Returned a, s')
    | (Raised e, s') => if catches e then handler e s' else (Raised e, s')
    end.

Declare Scope py_scope.
Delimit Scope py_scope with py.
Notation "x <- y ;; z" := (bind y (fun x => z))
  (at level 100, y at next level, z at level 200, right associativity) : py_scope.
Notation "x ;; z" := (bind x (fun _ => z))
  (at level 100, z at level 200, only parsing, right associativity) : py_scope.
Open Scope py_scope.

(** ** Builtins: [bytes.decode('utf-8')] *)

Definition in_range (lo hi : Z) (c : Ascii.ascii) : bool :=
  let n := Z.of_N (Ascii.N_of_ascii c) in (lo <=? n) && (n <=? hi).

(** Python text is kept as the bytes of its UTF-8 encoding, so decoding a
    byte string checks that it is well-formed UTF-8 and keeps the bytes. *)
Definition cont (c : Ascii.ascii) : bool := in_range 128 191 c.

Fixpoint utf8_valid (s : string) : bool :=
  match s with
  | EmptyString => true
  | String b0 r0 =>
      if in_range 0 127 b0 then utf8_valid r0
      else
        match r0 with
        | EmptyString => false
        | String b1 r1 =>
            if in_range 194 223 b0 then cont b1 && utf8_valid r1
            else
              match r1 with
              | EmptyString => false
              | String b2 r2 =>
                  if in_range 224 224 b0 then
                    in_range 160 191 b1 && cont b2 && utf8_valid r2
                  else if in_range 237 237 b0 then
                    in_range 128 159 b1 && cont b2 && utf8_valid r2
                  else if in_range 225 239 b0 then
                    cont b1 && cont b2 && utf8_valid r2
                  else
                    match r2 with
                    | EmptyString => false
                    | String b3 r3 =>
                        if in_range 240 240 b0 then
                          in_range 144 191 b1 && cont b2 && cont b3 && utf8_valid r3
                        else if in_range 241 243 b0 then
                          cont b1 && cont b2 && cont b3 && utf8_valid r3
                        else if in_range 244 244 b0 then
                          in_range 128 143 b1 && cont b2 && cont b3 && utf8_valid r3
                        else false
                    end
              end
        end
  end.

Definition decode_utf8 (b : string) : outcome string :=
  if utf8_valid b then Returned b else Raised UnicodeDecodeError.

(** ** Collaborators of the class that are not among the sources *)

Module ExponentialBackoff.

(** Modelled from the spec: [ExponentialBackoff] of wavelink/backoff.py, which
    is imported by websocket.py but is not among the sources.  The spec gives
    it an internal exponent counter, a delay of [base ^ min(exponent, cap)]
    per call, no side effect besides the increment of the counter, and a
    reset that sets the counter back to zero.  The optional jitter is left
    out, and the cap is an argument since the spec leaves it tunable. *)
Record t := mk { base : Z; cap : Z; exponent : Z }.

Definition init (base cap : Z) : t :=
  {| base := base; cap := cap; exponent := 0 |}.

Definition delay (b : t) : Z * t :=
  (base b ^ Z.min (exponent b) (cap b),
   {| base := base b; cap := cap b; exponent := exponent b + 1 |}).

Definition reset (b : t) : t :=
  {| base := base b; cap := cap b; exponent := 0 |}.

(** The delay a generator gives on its first call, the least it ever gives. *)
Definition minimum (base cap : Z) : Z := fst (delay (init base cap)).

End ExponentialBackoff.

(** Modelled from the spec: [Stats] of wavelink/stats.py (not among the
    sources), "a fresh snapshot parsed from the frame": the snapshot keeps
    the frame it was built from. *)
Record Stats := { snapshot : frame }.

(** Modelled from the spec: the typed events of wavelink/events.py (not among
    the sources), each built from the frame that announced it. *)
Inductive Event :=
| TrackEnd (data : frame)
| TrackStart (data : frame)
| TrackException (data : frame)
| TrackStuck (data : frame)
| WebsocketClosed (data : frame).

(** ** aiohttp: connections and messages *)

(** The connection object; [closed] is set by aiohttp when the transport
    goes away. *)
Record ClientWebSocketResponse := { ws_id : nat; closed : bool }.

Inductive WSMsgType :=
| CONTINUATION | TEXT | BINARY | PING | PONG | CLOSE | CLOSING | CLOSED | ERROR.

Definition is_CLOSED (t : WSMsgType) : bool :=
  match t with CLOSED => true | _ => false end.

(** A received message with what [msg.json()] gives for it (an exception
    when the payload is not JSON text; payloads that decode to something
    other than an object are not represented). *)
Record WSMessage := { msg_type : WSMsgType; msg_json : outcome frame }.

(** What [self._dumps] returns: [str] or [bytes]. *)
Inductive dumped :=
| D_str (text : string)
| D_bytes (b : string).

(** [if isinstance(data_str, bytes): data_str = data_str.decode('utf-8')] *)
Definition as_text (data_str : dumped) : outcome string :=
  match data_str with
  | D_bytes b => decode_utf8 b
  | D_str text => Returned text
  end.

(** ** The event loop's tasks *)

(** Where a suspended [_listen] stands; [backoff] is its local variable. *)
Inductive listen_pc :=
| L_entry
| L_receive (backoff : ExponentialBackoff.t)
| L_sleep (backoff : ExponentialBackoff.t).

Inductive coroutine :=
| Co_listen (pc : listen_pc)
| Co_connect
| Co_process_data (data : frame).

Inductive task :=
| Pending (c : coroutine)
| Done
| Failed (e : exn).

(** ** Calls that leave the class *)

Inductive log_level := DEBUG | WARNING | LOG_ERROR.

Inductive effect :=
| E_wait_until_ready
| E_ws_connect (uri : string) (headers : list (string * string)) (heartbeat : Z)
| E_receive (ws : nat)
| E_send_str (ws : nat) (text : string)
| E_sleep (retry : Z)
| E_dispatch (listener : string) (payload : option Event)
| E_update_state (guild : Z)
| E_cancel (handle : nat)
| E_log (level : log_level) (text : string)
| E_print_stderr (text : string)
| E_print_exception (e : exn).

(** The listeners and payloads handed to [bot.dispatch], oldest first. *)
Definition dispatched (tr : list effect) : list (string * option Event) :=
  omap (fun e => match e with E_dispatch l p => Some (l, p) | _ => None end) tr.

(** The handshakes attempted. *)
Definition handshakes (tr : list effect) : list string :=
  omap (fun e => match e with E_ws_connect uri _ _ => Some uri | _ => None end) tr.

(** The delays slept before reconnecting. *)
Definition sleeps (tr : list effect) : list Z :=
  omap (fun e => match e with E_sleep d => Some d | _ => None end) tr.

(** The text frames written to the transport. *)
Definition sent (tr : list effect) : list (nat * string) :=
  omap (fun e => match e with E_send_str ws s => Some (ws, s) | _ => None end) tr.

Section WebSocket.

(** The player layer is outside this class: a player is any state, and its
    [update_state] coroutine may change that state and may raise. *)
Context {Player : Type}.
Variable update_state : frame -> M Player unit.

(** The cap that [ExponentialBackoff(base=7)] takes by default. *)
Variable backoff_cap : Z.

(** Python's builtin [int] on a [str]: the integer it reads, or [None] where
    it raises [ValueError].  Which texts it reads (whitespace, signs,
    underscores, digits of other scripts, a limit on the number of digits)
    is the interpreter's business and is decided by none of the code
    here. *)
Variable int_of_str : string -> option Z.

Record Node := {
  available : bool;
  stats : option Stats;
  players : gmap Z Player;
  resume_key : string;
  heartbeat : Z
}.

(** The attributes of a [WebSocket] object. *)
Record WebSocket := {
  _node : Node;
  host : string;
  port : Z;
  password : string;
  shard_count : pyval;
  user_id : Z;
  secure : pyval;
  user_agent : string;
  auto_reconnect : bool;
  _dumps : frame -> outcome dumped;
  _websocket : option ClientWebSocketResponse;
  _last_exc : option exn;
  _task : option nat;
  _closed : option bool
}.

(** The object, the tasks of [bot.loop] (a task's handle is its index) and
    the calls made so far. *)
Record World := {
  self : WebSocket;
  loop : list task;
  trace : list effect
}.

Definition with_node (f : Node -> Node) (s : WebSocket) : WebSocket :=
  {| _node := f (_node s); host := host s; port := port s;
     password := password s; shard_count := shard_count s;
     user_id := user_id s; secure := secure s; user_agent := user_agent s;
     auto_reconnect := auto_reconnect s; _dumps := _dumps s;
     _websocket := _websocket s; _last_exc := _last_exc s;
     _task := _task s; _closed := _closed s |}.

Definition with_websocket (c : option ClientWebSocketResponse) (s : WebSocket) : WebSocket :=
  {| _node := _node s; host := host s; port := port s;
     password := password s; shard_count := shard_count s;
     user_id := user_id s; secure := secure s; user_agent := user_agent s;
     auto_reconnect := auto_reconnect s; _dumps := _dumps s;
     _websocket := c; _last_exc := _last_exc s;
     _task := _task s; _closed := _closed s |}.

Definition with_last_exc (e : option exn) (s : WebSocket) : WebSocket :=
  {| _node := _node s; host := host s; port := port s;
     password := password s; shard_count := shard_count s;
     user_id := user_id s; secure := secure s; user_agent := user_agent s;
     auto_reconnect := auto_reconnect s; _dumps := _dumps s;
     _websocket := _websocket s; _last_exc := e;
     _task := _task s; _closed := _closed s |}.

Definition with_task (t : option nat) (s : WebSocket) : WebSocket :=
  {| _node := _node s; host := host s; port := port s;
     password := password s; shard_count := shard_count s;
     user_id := user_id s; secure := secure s; user_agent := user_agent s;
     auto_reconnect := auto_reconnect s; _dumps := _dumps s;
     _websocket := _websocket s; _last_exc := _last_exc s;
     _task := t; _closed := _closed s |}.

Definition with_closed (c : option bool) (s : WebSocket) : WebSocket :=
  {| _node := _node s; host := host s; port := port s;
     password := password s; shard_count := shard_count s;
     user_id := user_id s; secure := secure s; user_agent := user_agent s;
     auto_reconnect := auto_reconnect s; _dumps := _dumps s;
     _websocket := _websocket s; _last_exc := _last_exc s;
     _task := _task s; _closed := c |}.

Definition with_available (b : bool) (n : Node) : Node :=
  {| available := b; stats := stats n; players := players n;
     resume_key := resume_key n; heartbeat := heartbeat n |}.

Definition with_stats (st : option Stats) (n : Node) : Node :=
  {| available := available n; stats := st; players := players n;
     resume_key := resume_key n; heartbeat := heartbeat n |}.

Definition with_players (ps : gmap Z Player) (n : Node) : Node :=
  {| available := available n; stats := stats n; players := ps;
     resume_key := resume_key n; heartbeat := heartbeat n |}.

Definition with_self (f : WebSocket -> WebSocket) (w : World) : World :=
  {| self := f (self w); loop := loop w; trace := trace w |}.

(** One call to the outside, appended to the trace. *)
Definition emit (e : effect) : M World unit :=
  modify (fun w => {| self := self w; loop := loop w; trace := trace w ++ [e] |}).

(** [self.bot.loop.create_task(c)]: the new task's handle. *)
Definition create_task (c : coroutine) : M World nat :=
  fun w => (Returned (length (loop w)),
            {| self := self w; loop := loop w ++ [Pending c]; trace := trace w |}).

Definition update (f : WebSocket -> WebSocket) : M World unit := modify (with_self f).

(** [__log__.debug], [.warning], [.error]: the message without the values
    formatted into it. *)
Definition log (level : log_level) (text : string) : M World unit :=
  emit (E_log level text).

(** [self.bot.dispatch(listener, self._node, payload)]: the bot schedules the
    listeners of the event; the call itself returns. *)
Definition dispatch (listener : string) (payload : option Event) : M World unit :=
  emit (E_dispatch listener payload).

(** ** The methods of [WebSocket] *)

(** [headers] (property) *)
Definition headers (s : WebSocket) : list (string * string) :=
  [("Authorization", password s);
   ("Resume-Key", resume_key (_node s));
   ("User-Id", pretty (user_id s));
   ("Client-Name", "Wavelink");
   ("User-Agent", user_agent s)].

(** [is_connected] (property):
    [self._websocket is not None and not self._websocket.closed] *)
Definition is_connected (s : WebSocket) : bool :=
  match _websocket s with
  | Some ws => negb (closed ws)
  | None => false
  end.

(** [self._node.session.ws_connect(uri, headers=..., heartbeat=...)]: the
    call is recorded and [handshake] is what the peer makes of it. *)
Definition ws_connect (handshake : outcome ClientWebSocketResponse) (uri : string)
    : M World ClientWebSocketResponse :=
  s <- gets self ;;
  emit (E_ws_connect uri (headers s) (heartbeat (_node s))) ;;
  lift handshake.

Definition is_401 (error : exn) : bool :=
  match error with
  | WSServerHandshakeError status => status =? 401
  | _ => false
  end.

(** [_connect].  The [try] block gives [true] when it completes; the handler
    ends in [return], rendered by [false]. *)
Definition _connect (handshake : outcome ClientWebSocketResponse) : M World unit :=
  emit E_wait_until_ready ;;
  completed <-
    try_except
      (s <- gets self ;;
       let uri :=
         match secure s with
         | VBool true => "wss://" +:+ host s +:+ ":" +:+ pretty (port s)
         | _ => "ws://" +:+ host s +:+ ":" +:+ pretty (port s)
         end in
       (if negb (is_connected s) then
          ws <- ws_connect handshake uri ;;
          update (with_websocket (Some ws))
        else ret tt) ;;
       ret true)
      (fun _ => true)
      (fun error =>
         update (with_last_exc (Some error)) ;;
         update (with_node (with_available false)) ;;
         (if is_401 error then
            emit (E_print_stderr "Authorization Failed for Node")
          else
            log LOG_ERROR "WEBSOCKET | Connection Failure" ;;
            emit (E_print_exception error)) ;;
         ret false) ;;
  if completed then
    t <- gets (fun w => _task (self w)) ;;
    (match t with
     | None =>
         h <- create_task (Co_listen L_entry) ;;
         update (with_task (Some h))
     | Some _ => ret tt
     end) ;;
    update (with_last_exc None) ;;
    update (with_closed (Some false)) ;;
    update (with_node (with_available true)) ;;
    c <- gets (fun w => is_connected (self w)) ;;
    if c then
      dispatch "wavelink_node_ready" None ;;
      log DEBUG "WEBSOCKET | Connection established"
    else ret tt
  else ret tt.

(** [self._websocket.receive()] up to its suspension. *)
Definition receive : M World unit :=
  ws <- gets (fun w => _websocket (self w)) ;;
  match ws with
  | Some c => emit (E_receive (ws_id c))
  | None => raise AttributeError
  end.

(** [_listen] from its start to the first [await ... receive()]. *)
Definition _listen_entry : M World listen_pc :=
  let backoff := ExponentialBackoff.init 7 backoff_cap in
  receive ;;
  ret (L_receive backoff).

(** [_listen] from a received message to the next suspension: [None] when
    the coroutine returns. *)
Definition _listen_received (backoff : ExponentialBackoff.t) (msg : WSMessage)
    : M World (option listen_pc) :=
  if is_CLOSED (msg_type msg) then
    update (with_closed (Some true)) ;;
    auto <- gets (fun w => auto_reconnect (self w)) ;;
    if negb auto then
      dispatch "wavelink_node_connection_closed" None ;;
      try_except
        (t <- gets (fun w => _task (self w)) ;;
         match t with
         | Some h => emit (E_cancel h)
         | None => raise AttributeError
         end)
        (fun _ => true)
        (fun _ => ret tt) ;;
      update (with_task None) ;;
      ret None
    else
      log DEBUG "WEBSOCKET | Close data" ;;
      let (retry, backoff') := ExponentialBackoff.delay backoff in
      log WARNING "WEBSOCKET | Connection closed:: Retrying connection" ;;
      emit (E_sleep retry) ;;
      ret (Some (L_sleep backoff'))
  else
    log DEBUG "WEBSOCKET | Received Payload" ;;
    data <- lift (msg_json msg) ;;
    create_task (Co_process_data data) ;;
    receive ;;
    ret (Some (L_receive backoff)).

(** [_listen] from the end of [asyncio.sleep(retry)] to the next
    [await ... receive()]. *)
Definition _listen_woken (backoff : ExponentialBackoff.t) : M World (option listen_pc) :=
  c <- gets (fun w => is_connected (self w)) ;;
  (if negb c then create_task Co_connect ;; ret tt else ret tt) ;;
  receive ;;
  ret (Some (L_receive backoff)).

(** The names [_get_event_payload] compares with. *)
Definition event_names : list string :=
  ["TrackEndEvent"; "TrackStartEvent"; "TrackExceptionEvent";
   "TrackStuckEvent"; "WebSocketClosedEvent"].

(** [_get_event_payload]: [None] is Python's, returned when no branch is
    taken. *)
Definition _get_event_payload (name : pyval) (data : frame) : option (string * Event) :=
  if eq_str name "TrackEndEvent" then Some ("wavelink_track_end", TrackEnd data)
  else if eq_str name "TrackStartEvent" then Some ("wavelink_track_start", TrackStart data)
  else if eq_str name "TrackExceptionEvent" then Some ("wavelink_track_exception", TrackException data)
  else if eq_str name "TrackStuckEvent" then Some ("wavelink_track_stuck", TrackStuck data)
  else if eq_str name "WebSocketClosedEvent" then Some ("wavelink_websocket_closed", WebsocketClosed data)
  else None.

(** [int(v)]: a number is returned as it is ([True] and [False] as 1 and
    0), a string goes through the builtin, and for any other value [int]
    raises [TypeError]. *)
Definition py_int (v : pyval) : outcome Z :=
  match v with
  | VInt z => Returned z
  | VBool b => Returned (if b then 1 else 0)
  | VStr s =>
      match int_of_str s with
      | Some z => Returned z
      | None => Raised ValueError
      end
  | _ => Raised TypeError
  end.

(** [data[key]] *)
Definition subscript (data : frame) (key : string) : M World pyval :=
  match data !! key with
  | Some v => ret v
  | None => raise KeyError
  end.

(** [self._node.players[int(data['guildId'])]]: the guild and its player. *)
Definition lookup_player (data : frame) : M World (Z * Player) :=
  v <- subscript data "guildId" ;;
  guild <- lift (py_int v) ;;
  ps <- gets (fun w => players (_node (self w))) ;;
  match ps !! guild with
  | Some p => ret (guild, p)
  | None => raise KeyError
  end.

(** [await player.update_state(data)]: the player object registered for
    [guild] is changed in place, also when the call raises. *)
Definition call_update_state (guild : Z) (p : Player) (data : frame) : M World unit :=
  emit (E_update_state guild) ;;
  let (r, p') := update_state data p in
  update (with_node (fun n => with_players (<[guild := p']> (players n)) n)) ;;
  lift r.

(** [process_data].  The [try] of the [event] branch gives the frame with
    its ['player'] entry, or [None] where the handler returns. *)
Definition process_data (data : frame) : M World unit :=
  let op := dict_get data "op" in
  if negb (truthy op) then ret tt
  else
    (if eq_str op "stats" then
       update (with_node (with_stats (Some {| snapshot := data |})))
     else ret tt) ;;
    if eq_str op "event" then
      found <-
        try_except
          (found <- lookup_player data ;;
           ret (Some (<["player" := VPlayer (fst found)]> data)))
          is_KeyError
          (fun _ => ret None) ;;
      match found with
      | None => ret tt
      | Some data =>
          name <- subscript data "type" ;;
          unpacked <-
            match _get_event_payload name data with
            | Some two => ret two
            | None => raise TypeError
            end ;;
          let (listener, payload) := unpacked : string * Event in
          log DEBUG "WEBSOCKET | op: event" ;;
          try_except
            (dispatch listener (Some payload))
            (fun _ => true)
            (fun e => emit (E_print_exception e))
      end
    else if eq_str op "playerUpdate" then
      log DEBUG "WEBSOCKET | op: playerUpdate" ;;
      try_except
        (found <- lookup_player data ;;
         call_update_state (fst found) (snd found) data)
        is_KeyError
        (fun _ => ret tt)
    else ret tt.

(** [_send] *)
Definition _send (data : frame) : M World unit :=
  s <- gets self ;;
  if is_connected s then
    log DEBUG "WEBSOCKET | Sending Payload" ;;
    data_str <- lift (_dumps s data) ;;
    data_str <- lift (as_text data_str) ;;
    match _websocket s with
    | Some ws => emit (E_send_str (ws_id ws) data_str)
    | None => raise AttributeError
    end
  else ret tt.

(** ** The event loop *)

(** What the outside answers at a suspension point. *)
Inductive answer :=
| A_go
| A_received (r : outcome WSMessage)
| A_handshake (r : outcome ClientWebSocketResponse).

(** The segment a suspended coroutine runs on an answer, giving the
    coroutine's next suspension or [None] when it returns; no segment when
    the answer is not of the kind the coroutine waits for.  [_connect] and
    [process_data] run in one segment: the answers to their awaits are given
    at once. *)
Definition resume (c : coroutine) (a : answer) : option (M World (option coroutine)) :=
  match c, a with
  | Co_listen L_entry, A_go =>
      Some (pc <- _listen_entry ;; ret (Some (Co_listen pc)))
  | Co_listen (L_receive backoff), A_received r =>
      Some (msg <- lift r ;;
            pc <- _listen_received backoff msg ;;
            ret (Co_listen <$> pc))
  | Co_listen (L_sleep backoff), A_go =>
      Some (pc <- _listen_woken backoff ;; ret (Co_listen <$> pc))
  | Co_connect, A_handshake r =>
      Some (_connect r ;; ret None)
  | Co_process_data data, A_go =>
      Some (process_data data ;; ret None)
  | _, _ => None
  end.

Definition settle (r : outcome (option coroutine)) : task :=
  match r with
  | Returned (Some c) => Pending c
  | Returned None => Done
  | Raised e => Failed e
  end.

(** The loop resumes task [i] with answer [a]. *)
Definition run (i : nat) (a : answer) (w : World) : World :=
  match loop w !! i with
  | Some (Pending c) =>
      match resume c a with
      | Some segment =>
          let (r, w') := segment w in
          {| self := self w'; loop := <[i := settle r]> (loop w'); trace := trace w' |}
      | None => w
      end
  | _ => w
  end.

(** What happens to the system: a task is resumed, aiohttp marks the
    current connection closed, or the client layer calls [_connect]. *)
Inductive event :=
| Run (i : nat) (a : answer)
| TransportClosed
| Call_connect.

Definition close_transport (s : WebSocket) : WebSocket :=
  match _websocket s with
  | Some ws => with_websocket (Some {| ws_id := ws_id ws; closed := true |}) s
  | None => s
  end.

Definition step (w : World) (ev : event) : World :=
  match ev with
  | Run i a => run i a w
  | TransportClosed => with_self close_transport w
  | Call_connect => snd (create_task Co_connect w)
  end.

Definition exec (evs : list event) (w : World) : World := fold_left step evs w.

(** ** The pump's invariant *)

Definition pump_of (t : task) : option listen_pc :=
  match t with
  | Pending (Co_listen pc) => Some pc
  | _ => None
  end.

(** The suspended message pumps of the loop. *)
Definition pumps (l : list task) : list listen_pc := omap pump_of l.

(** The backoff a pump holds, or will create on entry. *)
Definition backoff_of (pc : listen_pc) : ExponentialBackoff.t :=
  match pc with
  | L_entry => ExponentialBackoff.init 7 backoff_cap
  | L_receive backoff | L_sleep backoff => backoff
  end.

(** The pump's next delay is at least every delay slept so far. *)
Definition pump_ok (pc : listen_pc) (slept : list Z) : Prop :=
  ExponentialBackoff.base (backoff_of pc) = 7 /\
  Forall (fun d => d <= fst (ExponentialBackoff.delay (backoff_of pc))) slept.

(** With auto-reconnect on there is at most one pump; while none was ever
    started nothing has been slept, and [_task] stays set once a pump was. *)
Definition pump_invariant (w : World) : Prop :=
  auto_reconnect (self w) = true /\
  StronglySorted Z.le (sleeps (trace w)) /\
  match pumps (loop w) with
  | [] => _task (self w) = None -> sleeps (trace w) = []
  | [pc] => _task (self w) <> None /\ pump_ok pc (sleeps (trace w))
  | _ => False
  end.

(** A segment that leaves the pump's concerns alone: it may create tasks
    other than pumps and make calls other than sleeping. *)
Definition quiet (w w' : World) : Prop :=
  auto_reconnect (self w') = auto_reconnect (self w) /\
  _task (self w') = _task (self w) /\
  sleeps (trace w') = sleeps (trace w) /\
  exists extra, loop w' = loop w ++ extra /\ pumps extra = [].

Definition keeps {A} (m : M World A) : Prop := forall w, quiet w (snd (m w)).

(** ** What further properties are stated with *)

(** The frame a typed event was built from. *)
Definition event_data (ev : Event) : frame :=
  match ev with
  | TrackEnd data | TrackStart data | TrackException data
  | TrackStuck data | WebsocketClosed data => data
  end.

(** The listener each event name is dispatched to, as [_get_event_payload]
    pairs them. *)
Definition listeners : list (string * string) :=
  [("TrackEndEvent", "wavelink_track_end");
   ("TrackStartEvent", "wavelink_track_start");
   ("TrackExceptionEvent", "wavelink_track_exception");
   ("TrackStuckEvent", "wavelink_track_stuck");
   ("WebSocketClosedEvent", "wavelink_websocket_closed")].

(** A computation all of whose runs relate the state before to the state
    after by [R], whether it returns or raises. *)
Definition respects (R : World -> World -> Prop) {A} (m : M World A) : Prop :=
  forall w, R w (snd (m w)).

(** The dispatcher's footprint: outside the node's statistics and players
    and the trace, nothing moves, and the trace gains no call on the
    transport, no handshake and no sleep. *)
Definition dispatcher_only (w w' : World) : Prop :=
  _websocket (self w') = _websocket (self w) /\
  _task (self w') = _task (self w) /\
  _last_exc (self w') = _last_exc (self w) /\
  _closed (self w') = _closed (self w) /\
  available (_node (self w')) = available (_node (self w)) /\
  loop w' = loop w /\
  handshakes (trace w') = handshakes (trace w) /\
  sent (trace w') = sent (trace w) /\
  sleeps (trace w') = sleeps (trace w).

(** Once a connection object is held, one is held. *)
Definition connection_kept (w w' : World) : Prop :=
  is_Some (_websocket (self w)) -> is_Some (_websocket (self w')).

(** At most one pump is suspended in the loop, and [_task] is set while one
    is. *)
Definition one_pump (w : World) : Prop :=
  match pumps (loop w) with
  | [] => True
  | [_] => _task (self w) <> None
  | _ => False
  end.

(** No pump is left although [_task] still holds a handle. *)
Definition pump_lost (w : World) : Prop :=
  pumps (loop w) = [] /\ _task (self w) <> None.

End WebSocket.

Arguments Node : clear implicits.
Arguments WebSocket : clear implicits.
Arguments World : clear implicits.

(** ** A concrete node, for running the model *)

Module Demo.

(** A stand-in for the builtin [int] on strings, to run the model: it reads
    decimal literals written in ASCII (blanks of codes 9 to 13 and 32 around
    them, a sign, digits, single underscores between digits).  Digits of
    other scripts and an interpreter's limit on the number of digits are
    outside it. *)
Definition is_space (c : Ascii.ascii) : bool :=
  in_range 32 32 c || in_range 9 13 c.

Definition digit_of (c : Ascii.ascii) : option Z :=
  if in_range 48 57 c then Some (Z.of_N (Ascii.N_of_ascii c) - 48) else None.

Fixpoint lstrip (s : string) : string :=
  match s with
  | String c rest => if is_space c then lstrip rest else s
  | EmptyString => s
  end.

Definition strip (s : string) : string :=
  String.rev (lstrip (String.rev (lstrip s))).

Fixpoint digits (acc : Z) (after_digit : bool) (s : string) : option Z :=
  match s with
  | EmptyString => if after_digit then Some acc else None
  | String c rest =>
      match digit_of c with
      | Some d => digits (10 * acc + d) true rest
      | None =>
          if in_range 95 95 c && after_digit then digits acc false rest
          else None
      end
  end.

Definition int_of_str (s : string) : option Z :=
  match strip s with
  | String c rest =>
      if in_range 45 45 c then Z.opp <$> digits 0 false rest
      else if in_range 43 43 c then digits 0 false rest
      else digits 0 false (String c rest)
  | EmptyString => None
  end.

(** A player that counts its updates; like a state update that reads
    [state['state']], it raises [KeyError] on a frame without that key. *)
Definition update_state (data : frame) : M nat unit :=
  fun n =>
    match data !! "state" with
    | Some _ => (Returned tt, S n)
    | None => (Raised KeyError, n)
    end.

Definition node : Node nat :=
  {| available := false; stats := None; players := {[ 42 := 0%nat ]};
     resume_key := "resume"; heartbeat := 60 |}.

Definition websocket (auto : bool) : WebSocket nat :=
  {| _node := node; host := "localhost"; port := 2333; password := "youshallnotpass";
     shard_count := VInt 1; user_id := 7; secure := VBool false; user_agent := "";
     auto_reconnect := auto; _dumps := fun _ => Returned (D_str "{}");
     _websocket := None; _last_exc := None; _task := None; _closed := None |}.

(** Before the first [_connect]. *)
Definition start (auto : bool) : World nat :=
  {| self := websocket auto; loop := []; trace := [] |}.

Definition conn (n : nat) : ClientWebSocketResponse := {| ws_id := n; closed := false |}.

Definition closed_msg : WSMessage := {| msg_type := CLOSED; msg_json := Raised TypeError |}.

(** The default cap used in the runs below. *)
Definition cap : Z := 10.

(** A first connection, with the pump suspended at its first receive. *)
Definition connected (auto : bool) : World nat :=
  exec update_state cap int_of_str
    [Call_connect; Run 0 (A_handshake (Returned (conn 1))); Run 1 A_go] (start auto).

Definition event_frame (type : string) : frame :=
  <["op" := VStr "event"]> (<["guildId" := VStr "42"]> {[ "type" := VStr type ]}).

Definition player_update (guild : string) : frame :=
  <["op" := VStr "playerUpdate"]> {[ "guildId" := VStr guild ]}.

Definition stats_frame : frame :=
  <["op" := VStr "stats"]> {[ "players" := VInt 3 ]}.

(** The pump sees a closure, sleeps, and asks for a reconnect; its next
    receive, still on the closed connection, is answered by another
    [CLOSED]; the reconnect succeeds while the pump sleeps, and the pump goes
    on to receive on the new connection. *)
Definition reconnect_run : list event :=
  [Call_connect; Run 0 (A_handshake (Returned (conn 1))); Run 1 A_go;
   TransportClosed; Run 1 (A_received (Returned closed_msg)); Run 1 A_go;
   Run 1 (A_received (Returned closed_msg));
   Run 2 (A_handshake (Returned (conn 2))); Run 1 A_go].

(** Later the new connection closes as well. *)
Definition later_closure : list event :=
  [TransportClosed; Run 1 (A_received (Returned closed_msg))].

(** Further frames and messages. *)
Definition state_update : frame := <["state" := VDict []]> (player_update "42").

Definition untyped_event : frame :=
  <["op" := VStr "event"]> {[ "guildId" := VStr "42" ]}.

Definition text_msg (payload : outcome frame) : WSMessage :=
  {| msg_type := TEXT; msg_json := payload |}.

(** A connected object whose serializer returns a byte that is not UTF-8. *)
Definition with_binary_dumps : World nat :=
  {| self :=
       {| _node := node; host := "localhost"; port := 2333; password := "youshallnotpass";
          shard_count := VInt 1; user_id := 7; secure := VBool false; user_agent := "";
          auto_reconnect := true;
          _dumps := fun _ =>
            Returned (D_bytes (String (Ascii.Ascii true true true true true true true true)
                                 EmptyString));
          _websocket := Some (conn 1); _last_exc := None; _task := None;
          _closed := None |};
     loop := []; trace := [] |}.

(** A connected object whose serializer returns [d] for every message. *)
Definition serializing (d : dumped) : World nat :=
  {| self :=
       {| _node := node; host := "localhost"; port := 2333; password := "youshallnotpass";
          shard_count := VInt 1; user_id := 7; secure := VBool false; user_agent := "";
          auto_reconnect := true; _dumps := fun _ => Returned d;
          _websocket := Some (conn 1); _last_exc := None; _task := None;
          _closed := None |};
     loop := []; trace := [] |}.

(** The two bytes, 195 and 169, that encode an e with an acute accent. *)
Definition e_acute : string :=
  String (Ascii.Ascii true true false false false false true true)
    (String (Ascii.Ascii true false false true false true false true) EmptyString).

(** The first connection, up to the pump's first receive. *)
Definition first_connection : list event :=
  [Call_connect; Run 0 (A_handshake (Returned (conn 1))); Run 1 A_go].

(** The pump asleep after a closure. *)
Definition asleep : World nat :=
  exec update_state cap int_of_str [TransportClosed; Run 1 (A_received (Returned closed_msg))]
    (connected true).

End Demo.

(** * Properties *)

Section Properties.

Context {Player : Type}.
Variable update_state : frame -> M Player unit.
Variable backoff_cap : Z.
Variable int_of_str : string -> option Z.

Ltac py_unfold :=
  unfold log, dispatch, update in *;
  unfold emit in *;
  unfold bind, ret, raise, gets, modify, lift, try_except, create_task,
    with_self in *;
  cbv beta iota in *;
  cbn [self loop trace] in *.

(** Reads attributes through the assignments made before. *)
Ltac py_proj :=
  cbn [self loop trace _node auto_reconnect _dumps _websocket _last_exc _task
       _closed available stats players with_node with_websocket with_last_exc
       with_task with_closed with_available with_stats with_players] in *.

(** Decides the comparisons of a known string with a literal. *)
Ltac py_tests :=
  repeat match goal with
    | |- context [eq_str (VStr ?a) ?b] =>
        let r := eval vm_compute in (eq_str (VStr a) b) in
        change (eq_str (VStr a) b) with r
    | |- context [truthy (VStr ?a)] =>
        let r := eval vm_compute in (truthy (VStr a)) in
        change (truthy (VStr a)) with r
    end; cbn [negb].

Lemma dict_get_op (data : frame) (s : string) :
  data !! "op" = Some (VStr s) -> dict_get data "op" = VStr s.
Proof. intros H. unfold dict_get. rewrite H. reflexivity. Qed.

Lemma lookup_player_miss (data : frame) (w : World Player) (v : pyval) (guild : Z) :
  data !! "guildId" = Some v ->
  py_int int_of_str v = Returned guild ->
  players (_node (self w)) !! guild = None ->
  lookup_player int_of_str data w = (Raised KeyError, w).
Proof.
  intros Hid Hint Hmiss. unfold lookup_player, subscript. py_unfold.
  rewrite Hid, Hint. cbn. rewrite Hmiss. reflexivity.
Qed.

Lemma lookup_player_hit (data : frame) (w : World Player) (v : pyval) (guild : Z) (p : Player) :
  data !! "guildId" = Some v ->
  py_int int_of_str v = Returned guild ->
  players (_node (self w)) !! guild = Some p ->
  lookup_player int_of_str data w = (Returned (guild, p), w).
Proof.
  intros Hid Hint Hhit. unfold lookup_player, subscript. py_unfold.
  rewrite Hid, Hint. cbn. rewrite Hhit. reflexivity.
Qed.

Lemma get_event_payload_unknown (name : pyval) (data : frame) :
  (forall s, s ∈ event_names -> name <> VStr s) ->
  _get_event_payload name data = None.
Proof.
  intros Hun. unfold _get_event_payload.
  assert (Hf : forall s, s ∈ event_names -> eq_str name s = false).
  { intros s Hs. destruct name; try reflexivity. cbn.
    apply String.eqb_neq. intros ->. exact (Hun s Hs eq_refl). }
  rewrite !Hf; [reflexivity | unfold event_names; set_solver ..].
Qed.

(** ** The dispatcher *)

(** C9: a [stats] frame replaces the node's cached statistics with the
    snapshot built from that frame and changes nothing else: the call
    returns, no call leaves the class (so nothing is dispatched), and the
    players, the node's other attributes, every attribute of the object and
    the tasks are as before. *)
Theorem C9_stats_frame (data : frame) (w : World Player) :
  data !! "op" = Some (VStr "stats") ->
  exists w',
    process_data update_state int_of_str data w = (Returned tt, w') /\
    stats (_node (self w')) = Some {| snapshot := data |} /\
    trace w' = trace w /\
    dispatched (trace w') = dispatched (trace w) /\
    loop w' = loop w /\
    players (_node (self w')) = players (_node (self w)) /\
    available (_node (self w')) = available (_node (self w)) /\
    resume_key (_node (self w')) = resume_key (_node (self w)) /\
    heartbeat (_node (self w')) = heartbeat (_node (self w)) /\
    _websocket (self w') = _websocket (self w) /\
    _last_exc (self w') = _last_exc (self w) /\
    _task (self w') = _task (self w) /\
    _closed (self w') = _closed (self w) /\
    auto_reconnect (self w') = auto_reconnect (self w) /\
    _dumps (self w') = _dumps (self w) /\
    (host (self w'), port (self w'), password (self w'), shard_count (self w'),
     user_id (self w'), secure (self w'), user_agent (self w'))
    = (host (self w), port (self w), password (self w), shard_count (self w),
       user_id (self w), secure (self w), user_agent (self w)).
Proof.
  intros Hop. unfold process_data. rewrite (dict_get_op _ _ Hop).
  py_tests. py_unfold. eexists. split; [reflexivity|].
  cbn. repeat split; reflexivity.
Qed.

(** C4 (amended): a [playerUpdate] frame that carries no [guildId], or one
    that [int] reads as a guild with no registered player, returns without
    raising; in these cases and also when [int] rejects the [guildId], the
    object, the node, every player and the tasks are left as they were, the
    only call made being the debug log. *)
Theorem C4_playerUpdate_unknown_session (data : frame) (w : World Player) :
  data !! "op" = Some (VStr "playerUpdate") ->
  let unchanged :=
    {| self := self w; loop := loop w;
       trace := trace w ++ [E_log DEBUG "WEBSOCKET | op: playerUpdate"] |} in
  (data !! "guildId" = None ->
   process_data update_state int_of_str data w = (Returned tt, unchanged)) /\
  (forall v guild,
      data !! "guildId" = Some v ->
      py_int int_of_str v = Returned guild ->
      players (_node (self w)) !! guild = None ->
      process_data update_state int_of_str data w = (Returned tt, unchanged)) /\
  (forall v e,
      data !! "guildId" = Some v ->
      py_int int_of_str v = Raised e ->
      snd (process_data update_state int_of_str data w) = unchanged).
Proof.
  intros Hop unchanged. unfold process_data. rewrite (dict_get_op _ _ Hop).
  py_tests. py_unfold. repeat split.
  - intros Hnone. unfold lookup_player, subscript. py_unfold. rewrite Hnone.
    reflexivity.
  - intros v guild Hid Hint Hmiss. erewrite lookup_player_miss by eauto. reflexivity.
  - intros v e Hid Hint. unfold lookup_player, subscript. py_unfold.
    rewrite Hid, Hint. cbn. destruct (is_KeyError e); reflexivity.
Qed.

(** C3 (amended): for a [playerUpdate] frame whose player exists, an
    exception raised by the player's [update_state] propagates out of
    [process_data] unless it is a [KeyError]; a [KeyError] raised by the call
    is absorbed by the same handler that absorbs the lookup miss. *)
Theorem C3_update_state_exception
    (data : frame) (w : World Player) (v : pyval) (guild : Z) (p p' : Player) (e : exn) :
  data !! "op" = Some (VStr "playerUpdate") ->
  data !! "guildId" = Some v ->
  py_int int_of_str v = Returned guild ->
  players (_node (self w)) !! guild = Some p ->
  update_state data p = (Raised e, p') ->
  fst (process_data update_state int_of_str data w)
  = if is_KeyError e then Returned tt else Raised e.
Proof.
  intros Hop Hid Hint Hhit Hup. unfold process_data. rewrite (dict_get_op _ _ Hop).
  py_tests. py_unfold.
  erewrite lookup_player_hit by eauto. cbn.
  unfold call_update_state. py_unfold. rewrite Hup. cbn.
  destruct (is_KeyError e); reflexivity.
Qed.

(** An [event] frame whose player exists and whose type is none of the five
    names: unpacking the [None] that [_get_event_payload] returns raises
    [TypeError], before anything is logged or dispatched. *)
Lemma process_data_unknown_event_type
    (data : frame) (w : World Player) (v name : pyval) (guild : Z) (p : Player) :
  data !! "op" = Some (VStr "event") ->
  data !! "guildId" = Some v ->
  py_int int_of_str v = Returned guild ->
  players (_node (self w)) !! guild = Some p ->
  data !! "type" = Some name ->
  (forall s, s ∈ event_names -> name <> VStr s) ->
  process_data update_state int_of_str data w = (Raised TypeError, w).
Proof.
  intros Hop Hid Hint Hhit Hty Hun. unfold process_data.
  rewrite (dict_get_op _ _ Hop). py_tests. py_unfold.
  erewrite lookup_player_hit by eauto. cbn.
  unfold subscript. rewrite lookup_insert_ne by discriminate. rewrite Hty.
  py_unfold. rewrite get_event_payload_unknown by assumption.
  destruct w; reflexivity.
Qed.

(** ** Sending *)

(** C5: without a live connection [_send] does nothing at all: it returns,
    and the object, the tasks and the trace are as before, so nothing is
    written and no call is awaited.  With a live connection it serializes
    the message with [_dumps] and writes the result in one [send_str] call
    on the current connection: the text itself when [_dumps] returns text,
    and the text the bytes decode to when it returns well-formed UTF-8. *)
Theorem C5_send (data : frame) (w : World Player) :
  (is_connected (self w) = false -> _send data w = (Returned tt, w)) /\
  (forall ws text,
      _websocket (self w) = Some ws ->
      closed ws = false ->
      _dumps (self w) data = Returned (D_str text) ->
      _send data w
      = (Returned tt,
         {| self := self w; loop := loop w;
            trace := trace w ++ [E_log DEBUG "WEBSOCKET | Sending Payload";
                                 E_send_str (ws_id ws) text] |})) /\
  (forall ws b,
      _websocket (self w) = Some ws ->
      closed ws = false ->
      _dumps (self w) data = Returned (D_bytes b) ->
      utf8_valid b = true ->
      _send data w
      = (Returned tt,
         {| self := self w; loop := loop w;
            trace := trace w ++ [E_log DEBUG "WEBSOCKET | Sending Payload";
                                 E_send_str (ws_id ws) b] |})).
Proof.
  repeat split.
  - intros Hc. unfold _send. py_unfold. rewrite Hc. reflexivity.
  - intros ws text Hws Hopen Hd. unfold _send. py_unfold.
    unfold is_connected. rewrite Hws, Hopen. cbn.
    rewrite Hd. cbn. rewrite <- app_assoc. reflexivity.
  - intros ws b Hws Hopen Hd Hvalid. unfold _send. py_unfold.
    unfold is_connected. rewrite Hws, Hopen. cbn.
    rewrite Hd. cbn. unfold decode_utf8. rewrite Hvalid. cbn.
    rewrite <- app_assoc. reflexivity.
Qed.

(** ** Connecting *)

(** C7: when [_connect] finds no live connection and the handshake returns
    an open one, the call returns with that connection installed
    ([is_connected] holds), the node available, the last failure cleared,
    a pump task created exactly when [_task] held none, and one node-ready
    notification dispatched. *)
Theorem C7_connect_success (ws : ClientWebSocketResponse) (w : World Player) :
  is_connected (self w) = false ->
  closed ws = false ->
  exists w',
    _connect (Returned ws) w = (Returned tt, w') /\
    is_connected (self w') = true /\
    _websocket (self w') = Some ws /\
    available (_node (self w')) = true /\
    _last_exc (self w') = None /\
    match _task (self w) with
    | None =>
        loop w' = loop w ++ [Pending (Co_listen L_entry)] /\
        _task (self w') = Some (length (loop w))
    | Some h => loop w' = loop w /\ _task (self w') = Some h
    end /\
    dispatched (trace w') = dispatched (trace w) ++ [("wavelink_node_ready", None)].
Proof.
  intros Hc Hopen. unfold _connect, ws_connect. py_unfold. rewrite Hc. cbn.
  destruct (_task (self w)) as [h|] eqn:Ht; cbn;
    unfold is_connected; cbn; rewrite Hopen; cbn;
    (eexists; split; [reflexivity|]); cbn; rewrite ?Hopen, ?Ht;
    unfold dispatched; rewrite !omap_app; cbn; rewrite ?app_nil_r;
    repeat split; reflexivity.
Qed.

(** C8: when [_connect] finds no live connection and the handshake raises,
    the call returns with the error recorded as the last failure and the
    node unavailable; one handshake was attempted and none after it; a
    rejection with status 401 is printed to stderr as an authorization
    failure where any other error is logged with its traceback; the
    connection, the pump task and the dispatched notifications are as
    before. *)
Theorem C8_connect_failure (error : exn) (w : World Player) :
  is_connected (self w) = false ->
  exists w' uri,
    _connect (Raised error) w = (Returned tt, w') /\
    _last_exc (self w') = Some error /\
    available (_node (self w')) = false /\
    trace w' = trace w
               ++ [E_wait_until_ready;
                   E_ws_connect uri (headers (self w)) (heartbeat (_node (self w)))]
               ++ (if is_401 error
                   then [E_print_stderr "Authorization Failed for Node"]
                   else [E_log LOG_ERROR "WEBSOCKET | Connection Failure";
                         E_print_exception error]) /\
    handshakes (trace w') = handshakes (trace w) ++ [uri] /\
    dispatched (trace w') = dispatched (trace w) /\
    loop w' = loop w /\
    _task (self w') = _task (self w) /\
    _websocket (self w') = _websocket (self w).
Proof.
  intros Hc. unfold _connect, ws_connect. py_unfold. rewrite Hc. cbn.
  destruct (is_401 error) eqn:H401; cbn;
    (eexists; eexists; split; [reflexivity|]); cbn;
    unfold handshakes, dispatched; rewrite !omap_app; cbn;
    rewrite <- ?app_assoc, ?app_nil_r; cbn;
    repeat split; reflexivity.
Qed.

Lemma connect_live (h : outcome ClientWebSocketResponse) (w : World Player) :
  is_connected (self w) = true ->
  exists w',
    _connect h w = (Returned tt, w') /\
    _websocket (self w') = _websocket (self w) /\
    handshakes (trace w') = handshakes (trace w) /\
    available (_node (self w')) = true /\
    dispatched (trace w') = dispatched (trace w) ++ [("wavelink_node_ready", None)].
Proof.
  intros Hc. unfold _connect, ws_connect. py_unfold.
  rewrite Hc. cbn [negb].
  destruct (_task (self w)) as [t|] eqn:Ht; cbn [self loop trace];
    rewrite Ht; cbv beta iota; cbn [self loop trace].
  - change (is_connected (with_node _ (with_closed _ (with_last_exc _ ?s))))
      with (is_connected s).
    rewrite Hc. eexists; split; [reflexivity|]. cbn.
    unfold handshakes, dispatched. rewrite !omap_app. cbn.
    rewrite !app_nil_r. repeat split; reflexivity.
  - change (is_connected (with_node _ (with_closed _ (with_last_exc _ (with_task _ ?s)))))
      with (is_connected s).
    rewrite Hc. eexists; split; [reflexivity|]. cbn.
    unfold handshakes, dispatched. rewrite !omap_app. cbn.
    rewrite !app_nil_r. repeat split; reflexivity.
Qed.

(** C10: [_connect] on a live connection attempts no handshake and leaves
    the connection field as it is, yet marks the node available and
    dispatches node-ready again; the connection is still live afterwards, so
    a further call dispatches it once more. *)
Theorem C10_connect_while_connected
    (h1 h2 : outcome ClientWebSocketResponse) (w : World Player) :
  is_connected (self w) = true ->
  exists w' w'',
    _connect h1 w = (Returned tt, w') /\
    _connect h2 w' = (Returned tt, w'') /\
    _websocket (self w') = _websocket (self w) /\
    handshakes (trace w') = handshakes (trace w) /\
    available (_node (self w')) = true /\
    dispatched (trace w') = dispatched (trace w) ++ [("wavelink_node_ready", None)] /\
    _websocket (self w'') = _websocket (self w) /\
    handshakes (trace w'') = handshakes (trace w) /\
    dispatched (trace w'')
    = dispatched (trace w) ++ [("wavelink_node_ready", None); ("wavelink_node_ready", None)].
Proof.
  intros Hc.
  destruct (connect_live h1 w Hc) as (w' & Hrun & Hws & Hhs & Hav & Hd).
  assert (Hc' : is_connected (self w') = true)
    by (unfold is_connected in *; rewrite Hws; exact Hc).
  destruct (connect_live h2 w' Hc') as (w'' & Hrun' & Hws' & Hhs' & _ & Hd').
  exists w', w''. rewrite Hws', Hhs', Hd', Hd, <- app_assoc.
  repeat split; assumption || reflexivity.
Qed.

(** ** The message pump *)

(** C6: when the pump, suspended at its receive, gets a [CLOSED] message and
    auto-reconnect is off, its task ends; one connection-closed notification
    is dispatched, the task handle is cleared, no task is created (so no
    [_connect]), no handshake is attempted and nothing is slept. *)
Theorem C6_closed_without_auto_reconnect
    (i : nat) (backoff : ExponentialBackoff.t) (msg : WSMessage) (w : World Player) :
  loop w !! i = Some (Pending (Co_listen (L_receive backoff))) ->
  msg_type msg = CLOSED ->
  auto_reconnect (self w) = false ->
  let w' := run update_state backoff_cap int_of_str i (A_received (Returned msg)) w in
  loop w' = <[i := Done]> (loop w) /\
  _task (self w') = None /\
  dispatched (trace w')
  = dispatched (trace w) ++ [("wavelink_node_connection_closed", None)] /\
  handshakes (trace w') = handshakes (trace w) /\
  sleeps (trace w') = sleeps (trace w).
Proof.
  intros Hi Hty Hauto. unfold run. rewrite Hi. cbn [resume]. py_unfold.
  unfold _listen_received. rewrite Hty. cbn [is_CLOSED]. py_unfold. py_proj.
  rewrite Hauto. cbn [negb].
  cbn. destruct (_task (self w)) as [h|]; cbn;
    unfold dispatched, handshakes, sleeps; rewrite !omap_app; cbn;
    rewrite ?app_nil_r; repeat split; reflexivity.
Qed.

(** ** Segments that leave the pump alone *)

#[local] Abbreviation keeps := (@keeps Player _).

Lemma quiet_refl (w : World Player) : quiet w w.
Proof.
  repeat split. exists []. split; [symmetry; apply app_nil_r | reflexivity].
Qed.

Lemma quiet_trans (w1 w2 w3 : World Player) :
  quiet w1 w2 -> quiet w2 w3 -> quiet w1 w3.
Proof.
  intros (Ha & Ht & Hs & x & Hl & Hx) (Ha' & Ht' & Hs' & y & Hl' & Hy).
  repeat split; try congruence.
  exists (x ++ y). split.
  - rewrite Hl', Hl, app_assoc. reflexivity.
  - unfold pumps in *. rewrite omap_app, Hx, Hy. reflexivity.
Qed.

Lemma keeps_ret {A} (a : A) : keeps (ret a).
Proof. intros w. apply quiet_refl. Qed.

Lemma keeps_raise {A} (e : exn) : keeps (raise (A := A) e).
Proof. intros w. apply quiet_refl. Qed.

Lemma keeps_lift {A} (r : outcome A) : keeps (lift r).
Proof. intros w. apply quiet_refl. Qed.

Lemma keeps_gets {A} (f : World Player -> A) : keeps (gets f).
Proof. intros w. apply quiet_refl. Qed.

Lemma keeps_bind {A B} (m : M (World Player) A) (k : A -> M (World Player) B) :
  keeps m -> (forall a, keeps (k a)) -> keeps (bind m k).
Proof.
  intros Hm Hk w. unfold bind. specialize (Hm w).
  destruct (m w) as [[a|e] w1]; cbn in *; [|exact Hm].
  eapply quiet_trans; [exact Hm | apply Hk].
Qed.

Lemma keeps_try_except {A} (body : M (World Player) A) (catches : exn -> bool)
    (handler : exn -> M (World Player) A) :
  keeps body -> (forall e, keeps (handler e)) -> keeps (try_except body catches handler).
Proof.
  intros Hb Hh w. unfold try_except. specialize (Hb w).
  destruct (body w) as [[a|e] w1]; cbn in *; [exact Hb|].
  destruct (catches e); [|exact Hb].
  eapply quiet_trans; [exact Hb | apply Hh].
Qed.

Lemma keeps_emit (e : effect) :
  (forall d, e <> E_sleep d) -> keeps (emit e).
Proof.
  intros He w. unfold emit, modify. cbn [snd]. repeat split.
  - cbn [trace]. unfold sleeps. rewrite omap_app. destruct e; cbn; try apply app_nil_r.
    exfalso. eapply He. reflexivity.
  - exists []. split; [symmetry; apply app_nil_r | reflexivity].
Qed.

Lemma keeps_log (level : log_level) (text : string) : keeps (log level text).
Proof. apply keeps_emit. discriminate. Qed.

Lemma keeps_dispatch (listener : string) (payload : option Event) :
  keeps (dispatch listener payload).
Proof. apply keeps_emit. discriminate. Qed.

Lemma keeps_update (f : WebSocket Player -> WebSocket Player) :
  (forall s, auto_reconnect (f s) = auto_reconnect s /\ _task (f s) = _task s) ->
  keeps (update f).
Proof.
  intros Hf w. unfold update, modify, with_self. cbn.
  destruct (Hf (self w)) as [Ha Ht]. repeat split; try assumption.
  exists []. split; [symmetry; apply app_nil_r | reflexivity].
Qed.

Lemma keeps_create_task (c : coroutine) :
  pump_of (Pending c) = None -> keeps (create_task c).
Proof.
  intros Hc w. unfold create_task. cbn [snd]. repeat split.
  exists [Pending c]. split; [reflexivity|]. unfold pumps. cbn [omap list_omap].
  rewrite Hc. reflexivity.
Qed.

(** Takes a segment apart down to the calls it is made of. *)
Ltac keeps_tac :=
  repeat first
    [ apply keeps_ret | apply keeps_raise | apply keeps_lift | apply keeps_gets
    | apply keeps_log | apply keeps_dispatch
    | apply keeps_emit; discriminate
    | apply keeps_update; intros; split; reflexivity
    | apply keeps_create_task; reflexivity
    | apply keeps_bind; [|intros]
    | apply keeps_try_except; [|intros]
    | match goal with
      | |- keeps (if ?b then _ else _) => destruct b
      | |- keeps (match ?x with _ => _ end) => destruct x
      | |- keeps (let (_, _) := ?x in _) => destruct x
      end ].

Lemma keeps_receive : keeps receive.
Proof. unfold receive. keeps_tac. Qed.

Lemma keeps_process_data (data : frame) : keeps (process_data update_state int_of_str data).
Proof.
  unfold process_data, lookup_player, subscript, call_update_state. keeps_tac.
Qed.

Lemma keeps_listen_entry : keeps (_listen_entry backoff_cap).
Proof. unfold _listen_entry. keeps_tac. Qed.

Lemma keeps_listen_woken (backoff : ExponentialBackoff.t) :
  keeps (_listen_woken backoff).
Proof. unfold _listen_woken. keeps_tac. Qed.

(** ** The backoff across closures and reconnections *)

Lemma delay_mono (b : ExponentialBackoff.t) :
  ExponentialBackoff.base b = 7 ->
  fst (ExponentialBackoff.delay b)
  <= fst (ExponentialBackoff.delay (snd (ExponentialBackoff.delay b))).
Proof.
  intros Hb. unfold ExponentialBackoff.delay. cbn. rewrite Hb.
  apply Z.pow_le_mono_r; lia.
Qed.

Lemma sorted_snoc (l : list Z) (d : Z) :
  StronglySorted Z.le l -> Forall (fun x => x <= d) l ->
  StronglySorted Z.le (l ++ [d]).
Proof.
  induction 1 as [|x l Hs IH Hx]; intros Hd; cbn.
  - repeat constructor.
  - inversion Hd as [|? ? Hxd Hl]; subst. constructor.
    + apply IH. exact Hl.
    + apply Forall_app. split; [exact Hx | repeat constructor; exact Hxd].
Qed.

Lemma pumps_split (l : list task) (i : nat) (t t' : task) :
  l !! i = Some t ->
  pumps l = pumps (take i l) ++ option_list (pump_of t) ++ pumps (drop (S i) l) /\
  pumps (<[i := t']> l)
  = pumps (take i l) ++ option_list (pump_of t') ++ pumps (drop (S i) l).
Proof.
  intros Hi. pose proof (lookup_lt_Some _ _ _ Hi) as Hlt. unfold pumps. split.
  - rewrite <- (take_drop_middle l i t Hi) at 1.
    rewrite omap_app. cbn. destruct (pump_of t); reflexivity.
  - rewrite insert_take_drop by exact Hlt.
    rewrite omap_app. cbn. destruct (pump_of t'); reflexivity.
Qed.

Lemma pumps_insert_other (l : list task) (i : nat) (t t' : task) :
  l !! i = Some t -> pump_of t = None -> pump_of t' = None ->
  pumps (<[i := t']> l) = pumps l.
Proof.
  intros Hi Ht Ht'. destruct (pumps_split l i t t' Hi) as [H1 H2].
  rewrite H1, H2, Ht, Ht'. reflexivity.
Qed.

Lemma pumps_insert_sole (l : list task) (i : nat) (t t' : task) (pc pc0 : listen_pc) :
  l !! i = Some t -> pump_of t = Some pc -> pumps l = [pc0] ->
  pc0 = pc /\ pumps (<[i := t']> l) = option_list (pump_of t').
Proof.
  intros Hi Ht Hl. destruct (pumps_split l i t t' Hi) as [H1 H2].
  rewrite Ht, Hl in H1. cbn in H1.
  destruct (pumps (take i l)) as [|a [|b r]]; cbn in H1; try discriminate.
  injection H1 as -> Hd. rewrite H2, <- Hd, app_nil_r. split; reflexivity.
Qed.

Lemma pumps_insert_app (l extra : list task) (i : nat) (t t' : task) :
  l !! i = Some t -> pumps extra = [] ->
  pumps (<[i := t']> (l ++ extra)) = pumps (<[i := t']> l).
Proof.
  intros Hi Hx. pose proof (lookup_lt_Some _ _ _ Hi) as Hlt.
  rewrite insert_app_l by exact Hlt. unfold pumps in *.
  rewrite omap_app, Hx. apply app_nil_r.
Qed.

(** A handshake, successful or not, changes no flag and sleeps nothing; it
    creates a pump at its entry exactly when [_task] held none and the
    [try] block completed. *)
Lemma connect_effect (h : outcome ClientWebSocketResponse) (w : World Player) :
  let w1 := snd (_connect h w) in
  auto_reconnect (self w1) = auto_reconnect (self w) /\
  sleeps (trace w1) = sleeps (trace w) /\
  ((_task (self w1) = _task (self w) /\ loop w1 = loop w) \/
   (_task (self w) = None /\ _task (self w1) = Some (length (loop w)) /\
    loop w1 = loop w ++ [Pending (Co_listen L_entry)])).
Proof.
  unfold _connect, ws_connect. py_unfold.
  destruct (is_connected (self w)); cbn [negb].
  2: destruct h as [ws|error]; [|destruct (is_401 error)].
  all: cbn; destruct (_task (self w)) as [t|] eqn:Ht; cbn.
  all: repeat match goal with
         | |- context [if ?b then _ else _] => destruct b
         end; cbn.
  all: unfold sleeps; rewrite ?omap_app; cbn; rewrite ?app_nil_r.
  all: repeat split; auto.
Qed.

Lemma keeps_listen_data (backoff : ExponentialBackoff.t) (msg : WSMessage) :
  is_CLOSED (msg_type msg) = false -> keeps (_listen_received backoff msg).
Proof. intros Hty. unfold _listen_received. rewrite Hty. keeps_tac. Qed.

(** On a [CLOSED] message with auto-reconnect on, the pump takes its next
    delay, sleeps it, and keeps the advanced backoff. *)
Lemma listen_closed_effect
    (backoff : ExponentialBackoff.t) (msg : WSMessage) (w : World Player) :
  is_CLOSED (msg_type msg) = true ->
  auto_reconnect (self w) = true ->
  exists w1,
    _listen_received backoff msg w
    = (Returned (Some (L_sleep (snd (ExponentialBackoff.delay backoff)))), w1) /\
    auto_reconnect (self w1) = true /\
    _task (self w1) = _task (self w) /\
    loop w1 = loop w /\
    sleeps (trace w1) = sleeps (trace w) ++ [fst (ExponentialBackoff.delay backoff)].
Proof.
  intros Hty Hauto. unfold _listen_received. rewrite Hty. py_unfold. cbn.
  rewrite Hauto. cbn.
  eexists. split; [reflexivity|]. cbn. rewrite Hauto.
  unfold sleeps. rewrite !omap_app. cbn. rewrite !app_nil_r.
  repeat split; reflexivity.
Qed.

(** Where each segment of [_listen] leaves the coroutine when it does not
    sleep: at its receive with the backoff it had, or failed. *)
Lemma listen_entry_result (w : World Player) :
  match fst (_listen_entry backoff_cap w) with
  | Returned pc => backoff_of backoff_cap pc = backoff_of backoff_cap L_entry
  | Raised _ => True
  end.
Proof.
  unfold _listen_entry, receive. py_unfold.
  destruct (_websocket (self w)); cbn; reflexivity || exact I.
Qed.

Lemma listen_data_result
    (backoff : ExponentialBackoff.t) (msg : WSMessage) (w : World Player) :
  is_CLOSED (msg_type msg) = false ->
  match fst (_listen_received backoff msg w) with
  | Returned (Some pc) => backoff_of backoff_cap pc = backoff
  | Returned None => False
  | Raised _ => True
  end.
Proof.
  intros Hty. unfold _listen_received, receive. rewrite Hty. py_unfold.
  destruct (msg_json msg); cbn; [|exact I].
  destruct (_websocket (self w)); cbn; reflexivity || exact I.
Qed.

Lemma listen_woken_result (backoff : ExponentialBackoff.t) (w : World Player) :
  match fst (_listen_woken backoff w) with
  | Returned (Some pc) => backoff_of backoff_cap pc = backoff
  | Returned None => False
  | Raised _ => True
  end.
Proof.
  unfold _listen_woken, receive. py_unfold.
  destruct (is_connected (self w)); cbn;
    destruct (_websocket (self w)); cbn; reflexivity || exact I.
Qed.

(** *** Each kind of step preserves the invariant *)

Abbreviation invariant := (@pump_invariant Player backoff_cap).

Lemma other_step_quiet (w w1 : World Player) (i : nat) (c : coroutine) (t' : task) :
  invariant w ->
  loop w !! i = Some (Pending c) ->
  pump_of (Pending c) = None ->
  pump_of t' = None ->
  quiet w w1 ->
  invariant {| self := self w1; loop := <[i := t']> (loop w1); trace := trace w1 |}.
Proof.
  intros (Hauto & Hsorted & Hp) Hi Hc Ht' (Ha & Ht & Hs & extra & Hl & Hx).
  unfold pump_invariant. cbn [self loop trace].
  rewrite Ha, Ht, Hs, Hl.
  rewrite (pumps_insert_app _ _ _ _ _ Hi Hx), (pumps_insert_other _ _ _ _ Hi Hc Ht').
  repeat split; assumption.
Qed.

Lemma pump_step_quiet (w w1 : World Player) (i : nat) (pc : listen_pc) (t' : task) :
  invariant w ->
  loop w !! i = Some (Pending (Co_listen pc)) ->
  match pump_of t' with
  | Some pc' => backoff_of backoff_cap pc' = backoff_of backoff_cap pc
  | None => True
  end ->
  quiet w w1 ->
  invariant {| self := self w1; loop := <[i := t']> (loop w1); trace := trace w1 |}.
Proof.
  intros (Hauto & Hsorted & Hp) Hi Ht' (Ha & Ht & Hs & extra & Hl & Hx).
  unfold pump_invariant. cbn [self loop trace].
  rewrite Ha, Ht, Hs, Hl, (pumps_insert_app _ _ _ _ _ Hi Hx).
  destruct (pumps (loop w)) as [|pc0 [|pc1 rest]] eqn:Hpumps.
  - destruct (pumps_split (loop w) i _ t' Hi) as [H1 _].
    rewrite Hpumps in H1. cbn in H1. destruct (pumps (take i (loop w))); discriminate.
  - destruct (pumps_insert_sole _ _ _ t' pc pc0 Hi eq_refl Hpumps) as [-> Hins].
    rewrite Hins. destruct Hp as [Htask Hok].
    repeat split; try assumption.
    destruct (pump_of t') as [pc'|]; cbn.
    + split; [exact Htask|]. unfold pump_ok in *. rewrite Ht'. exact Hok.
    + intros H. contradiction.
  - contradiction.
Qed.

Lemma pump_step_sleep (w w1 : World Player) (i : nat) (backoff : ExponentialBackoff.t) :
  invariant w ->
  loop w !! i = Some (Pending (Co_listen (L_receive backoff))) ->
  auto_reconnect (self w1) = true ->
  _task (self w1) = _task (self w) ->
  loop w1 = loop w ->
  sleeps (trace w1) = sleeps (trace w) ++ [fst (ExponentialBackoff.delay backoff)] ->
  invariant
    {| self := self w1;
       loop := <[i := Pending (Co_listen (L_sleep (snd (ExponentialBackoff.delay backoff))))]>
                 (loop w1);
       trace := trace w1 |}.
Proof.
  intros (Hauto & Hsorted & Hp) Hi Ha Ht Hl Hs.
  unfold pump_invariant. cbn [self loop trace]. rewrite Ht, Hs, Hl.
  destruct (pumps (loop w)) as [|pc0 [|pc1 rest]] eqn:Hpumps.
  - destruct (pumps_split (loop w) i _ Done Hi) as [H1 _].
    rewrite Hpumps in H1. cbn in H1. destruct (pumps (take i (loop w))); discriminate.
  - destruct (pumps_insert_sole _ _ _
                (Pending (Co_listen (L_sleep (snd (ExponentialBackoff.delay backoff)))))
                _ pc0 Hi eq_refl Hpumps) as [-> Hins].
    rewrite Hins. cbn [pump_of option_list].
    destruct Hp as [Htask [Hbase Hle]]. cbn [backoff_of] in Hbase, Hle.
    split; [exact Ha|]. split; [apply sorted_snoc; assumption|].
    split; [exact Htask|]. split; [exact Hbase|]. cbn [backoff_of].
    pose proof (delay_mono backoff Hbase) as Hmono.
    apply Forall_app. split.
    + eapply Forall_impl; [exact Hle|]. intros d Hd. cbv beta in Hd |- *.
      etransitivity; [exact Hd | exact Hmono].
    + repeat constructor. exact Hmono.
  - contradiction.
Qed.

Lemma connect_step (w : World Player) (i : nat) (h : outcome ClientWebSocketResponse)
    (t' : task) :
  invariant w ->
  loop w !! i = Some (Pending Co_connect) ->
  pump_of t' = None ->
  invariant
    {| self := self (snd (_connect h w));
       loop := <[i := t']> (loop (snd (_connect h w)));
       trace := trace (snd (_connect h w)) |}.
Proof.
  intros Hinv Hi Ht'.
  destruct (connect_effect h w) as (Ha & Hs & [[Ht Hl] | (Hnone & Hsome & Hl)]).
  - apply (other_step_quiet w _ i Co_connect t' Hinv Hi eq_refl Ht').
    repeat split; try assumption. exists []. rewrite app_nil_r. split; [exact Hl | reflexivity].
  - destruct Hinv as (Hauto & Hsorted & Hp).
    unfold pump_invariant. cbn [self loop trace]. rewrite Ha, Hs, Hsome, Hl.
    pose proof (lookup_lt_Some _ _ _ Hi) as Hlt.
    rewrite insert_app_l by exact Hlt. unfold pumps at 1. rewrite omap_app.
    fold (pumps (<[i := t']> (loop w))).
    rewrite (pumps_insert_other _ _ _ _ Hi eq_refl Ht'). cbn.
    destruct (pumps (loop w)) as [|pc0 [|pc1 rest]].
    + cbn. specialize (Hp Hnone). rewrite Hp.
      repeat split; try assumption; try discriminate; constructor.
    + destruct Hp as [Htask _]. contradiction.
    + contradiction.
Qed.

Lemma run_preserves (i : nat) (a : answer) (w : World Player) :
  invariant w -> invariant (run update_state backoff_cap int_of_str i a w).
Proof.
  intros Hinv. unfold run.
  destruct (loop w !! i) as [[c| |e]|] eqn:Hi; try exact Hinv.
  destruct c as [[|b|b]| |data], a as [|r|r]; cbn [resume]; try exact Hinv.
  - (* the pump enters *)
    unfold bind, ret.
    pose proof (keeps_listen_entry w) as Hq.
    pose proof (listen_entry_result w) as Hr.
    destruct (_listen_entry backoff_cap w) as [[pc|e] w1]; cbn [fst snd settle] in *;
      apply (pump_step_quiet w w1 i L_entry); assumption || exact I.
  - (* the pump receives *)
    unfold bind, ret, lift. destruct r as [msg|e]; cbn [settle].
    2: { apply (pump_step_quiet w w i (L_receive b)); try assumption;
         [exact I | apply quiet_refl]. }
    destruct (is_CLOSED (msg_type msg)) eqn:Hty.
    + pose proof Hinv as (Hauto & _).
      destruct (listen_closed_effect b msg w Hty Hauto)
        as (w1 & Hrun & Ha & Ht & Hl & Hs).
      rewrite Hrun. cbn [fmap option_fmap option_map settle].
      apply (pump_step_sleep w w1 i b); assumption.
    + pose proof (keeps_listen_data b msg Hty w) as Hq.
      pose proof (listen_data_result b msg w Hty) as Hr.
      destruct (_listen_received b msg w) as [[[pc|]|e] w1];
        cbn [fst snd fmap option_fmap option_map settle] in *;
        try contradiction;
        apply (pump_step_quiet w w1 i (L_receive b)); assumption || exact I.
  - (* the pump wakes *)
    unfold bind, ret.
    pose proof (keeps_listen_woken b w) as Hq.
    pose proof (listen_woken_result b w) as Hr.
    destruct (_listen_woken b w) as [[[pc|]|e] w1];
      cbn [fst snd fmap option_fmap option_map settle] in *;
      try contradiction;
      apply (pump_step_quiet w w1 i (L_sleep b)); assumption || exact I.
  - (* a handshake *)
    unfold bind, ret.
    pose proof (connect_step w i r Done Hinv Hi eq_refl) as Hd.
    pose proof (fun e => connect_step w i r (Failed e) Hinv Hi eq_refl) as Hf.
    destruct (_connect r w) as [[[]|e] w1]; cbn [snd settle] in *; auto.
  - (* a frame is processed *)
    unfold bind, ret.
    pose proof (keeps_process_data data w) as Hq.
    destruct (process_data update_state int_of_str data w) as [[[]|e] w1]; cbn [snd settle] in *;
      apply (other_step_quiet w w1 i (Co_process_data data)); auto.
Qed.

Lemma step_preserves (ev : event) (w : World Player) :
  invariant w -> invariant (step update_state backoff_cap int_of_str w ev).
Proof.
  intros Hinv. destruct ev as [i a| |]; cbn [step].
  - apply run_preserves. exact Hinv.
  - destruct Hinv as (Hauto & Hsorted & Hp). unfold pump_invariant, with_self, close_transport.
    cbn [self loop trace]. destruct (_websocket (self w)); repeat split; assumption.
  - destruct Hinv as (Hauto & Hsorted & Hp). unfold pump_invariant, create_task.
    cbn [snd self loop trace]. unfold pumps at 1. rewrite omap_app. cbn.
    rewrite app_nil_r. repeat split; assumption.
Qed.

Lemma exec_preserves (evs : list event) (w : World Player) :
  invariant w -> invariant (exec update_state backoff_cap int_of_str evs w).
Proof.
  revert w. induction evs as [|ev evs IH]; intros w Hinv; cbn.
  - exact Hinv.
  - apply IH, step_preserves, Hinv.
Qed.

(** A handshake leaves every suspended pump where it was, with the backoff
    it had. *)
Lemma connect_keeps_pumps
    (i j : nat) (h : outcome ClientWebSocketResponse) (pc : listen_pc) (w : World Player) :
  loop w !! i = Some (Pending Co_connect) ->
  loop w !! j = Some (Pending (Co_listen pc)) ->
  loop (run update_state backoff_cap int_of_str i (A_handshake h) w) !! j
  = Some (Pending (Co_listen pc)).
Proof.
  intros Hi Hj. unfold run. rewrite Hi. cbn [resume]. unfold bind, ret.
  assert (Hne : i <> j) by (intros ->; congruence).
  destruct (connect_effect h w) as (_ & _ & Hl).
  destruct (_connect h w) as [r w1]. cbn [snd loop] in *.
  assert (Hj1 : loop w1 !! j = Some (Pending (Co_listen pc))).
  { destruct Hl as [[_ ->] | (_ & _ & ->)]; [exact Hj|].
    rewrite lookup_app_l; [exact Hj | eapply lookup_lt_Some; exact Hj]. }
  destruct r as [[]|e]; cbn [loop]; rewrite list_lookup_insert_ne by exact Hne; exact Hj1.
Qed.

(** C1 (amended): starting from a freshly built object with auto-reconnect
    on, whatever the transport, the peer and the scheduler do, the delays
    the pump sleeps before its reconnect attempts are non-decreasing over
    the whole run; and a handshake, successful or not, leaves the pump's
    backoff as it was, so the delay after a later closure carries on from
    the counter reached and does not restart from the minimum. *)
Theorem C1_backoff_delays (evs : list event) (w0 : World Player) :
  auto_reconnect (self w0) = true ->
  loop w0 = [] ->
  trace w0 = [] ->
  _task (self w0) = None ->
  StronglySorted Z.le (sleeps (trace (exec update_state backoff_cap int_of_str evs w0))) /\
  (forall i j h pc,
      let w := exec update_state backoff_cap int_of_str evs w0 in
      loop w !! i = Some (Pending Co_connect) ->
      loop w !! j = Some (Pending (Co_listen pc)) ->
      loop (run update_state backoff_cap int_of_str i (A_handshake h) w) !! j
      = Some (Pending (Co_listen pc))).
Proof.
  intros Hauto Hloop Htrace Htask. split.
  - assert (Hinv : invariant w0).
    { unfold pump_invariant. rewrite Hloop, Htrace. cbn.
      repeat split; [exact Hauto | constructor]. }
    apply (exec_preserves evs) in Hinv. destruct Hinv as (_ & Hsorted & _).
    exact Hsorted.
  - intros i j h pc w Hi Hj. apply connect_keeps_pumps; assumption.
Qed.

(** * The unknown event *)

(** C2: an [event] frame whose player exists and whose type is none of the
    five names emits no event, and the [TypeError] that unpacking the [None]
    of [_get_event_payload] raises is not fatal: it ends the frame's own
    task and nothing else.  When the loop runs that task, nothing is
    dispatched, no call is made, the object is as before, every other task
    is as it was, and so the pump is still suspended, ready for the next
    message. *)
Theorem C2_unknown_event_type
    (j : nat) (data : frame) (w : World Player) (v name : pyval) (guild : Z) (p : Player) :
  loop w !! j = Some (Pending (Co_process_data data)) ->
  data !! "op" = Some (VStr "event") ->
  data !! "guildId" = Some v ->
  py_int int_of_str v = Returned guild ->
  players (_node (self w)) !! guild = Some p ->
  data !! "type" = Some name ->
  (forall s, s ∈ event_names -> name <> VStr s) ->
  let w' := run update_state backoff_cap int_of_str j A_go w in
  dispatched (trace w') = dispatched (trace w) /\
  trace w' = trace w /\
  self w' = self w /\
  loop w' = <[j := Failed TypeError]> (loop w) /\
  pumps (loop w') = pumps (loop w) /\
  (forall i, i <> j -> loop w' !! i = loop w !! i).
Proof.
  intros Hj Hop Hid Hint Hhit Hty Hun. unfold run. rewrite Hj. cbn [resume].
  unfold bind.
  rewrite (process_data_unknown_event_type data w v name guild p) by assumption.
  cbn [settle self loop trace]. repeat split.
  - apply (pumps_insert_other _ _ _ _ Hj); reflexivity.
  - intros i Hne. apply list_lookup_insert_ne. congruence.
Qed.

(** * Further properties of the dispatcher *)

Lemma py_int_not_KeyError (v : pyval) (e : exn) :
  py_int int_of_str v = Raised e -> is_KeyError e = false.
Proof.
  destruct v; cbn; try (intros [= <-]; reflexivity); try discriminate.
  destruct (int_of_str s); [discriminate | intros [= <-]; reflexivity].
Qed.

Lemma eq_str_false (v : pyval) (s : string) : v <> VStr s -> eq_str v s = false.
Proof.
  intros Hne. destruct v; try reflexivity. cbn. apply String.eqb_neq.
  intros ->. apply Hne. reflexivity.
Qed.

(** X1: a frame whose [op] is none of ['stats'], ['event'] and
    ['playerUpdate'] (absent, empty, not a string, or another name) is
    passed over: [process_data] returns and nothing at all has changed. *)
Theorem process_data_other_op (data : frame) (w : World Player) :
  (forall s, s ∈ ["stats"; "event"; "playerUpdate"] -> dict_get data "op" <> VStr s) ->
  process_data update_state int_of_str data w = (Returned tt, w).
Proof.
  intros Hop. unfold process_data.
  rewrite !eq_str_false by (apply Hop; set_solver).
  destruct (truthy (dict_get data "op")); reflexivity.
Qed.

(** X2: an [event] frame whose player exists and whose type is one of the
    five names is dispatched once, to the listener paired with that name,
    with an event built from the frame to which the player was added under
    ['player']; the object and the tasks are as before. *)
Theorem process_data_known_event
    (data : frame) (w : World Player) (v : pyval) (guild : Z) (p : Player)
    (name listener : string) :
  data !! "op" = Some (VStr "event") ->
  data !! "guildId" = Some v ->
  py_int int_of_str v = Returned guild ->
  players (_node (self w)) !! guild = Some p ->
  data !! "type" = Some (VStr name) ->
  (name, listener) ∈ listeners ->
  exists payload,
    process_data update_state int_of_str data w
    = (Returned tt,
       {| self := self w; loop := loop w;
          trace := trace w ++ [E_log DEBUG "WEBSOCKET | op: event";
                               E_dispatch listener (Some payload)] |}) /\
    event_data payload = <["player" := VPlayer guild]> data.
Proof.
  intros Hop Hid Hint Hhit Hty Hin. unfold process_data.
  rewrite (dict_get_op _ _ Hop). py_tests. py_unfold.
  erewrite lookup_player_hit by eauto. cbn [fst snd].
  unfold subscript. rewrite lookup_insert_ne by discriminate. rewrite Hty.
  py_unfold.
  unfold listeners in Hin. rewrite !elem_of_cons, elem_of_nil in Hin.
  destruct Hin as [[= -> ->]|[[= -> ->]|[[= -> ->]|[[= -> ->]|[[= -> ->]|[]]]]]];
    cbn; rewrite <- app_assoc; eexists; split; reflexivity.
Qed.

(** X3: an [event] frame that carries no [guildId], or one that names no
    registered player, is dropped without a trace: [process_data] returns
    and nothing at all has changed, not even the log. *)
Theorem process_data_event_without_player (data : frame) (w : World Player) :
  data !! "op" = Some (VStr "event") ->
  (data !! "guildId" = None \/
   exists v guild, data !! "guildId" = Some v /\ py_int int_of_str v = Returned guild /\
                   players (_node (self w)) !! guild = None) ->
  process_data update_state int_of_str data w = (Returned tt, w).
Proof.
  intros Hop Hmiss. unfold process_data. rewrite (dict_get_op _ _ Hop).
  py_tests. py_unfold.
  destruct Hmiss as [Hnone | (v & guild & Hid & Hint & Hno)].
  - unfold lookup_player, subscript. py_unfold. rewrite Hnone. cbn.
    destruct w; reflexivity.
  - erewrite lookup_player_miss by eauto. cbn. destruct w; reflexivity.
Qed.

(** X4: when [int] rejects the [guildId] of an [event] or [playerUpdate]
    frame, its [ValueError] or [TypeError] leaves [process_data]: the
    handlers only catch [KeyError].  No player is looked up or updated and
    nothing is dispatched. *)
Theorem process_data_bad_guild_id
    (data : frame) (w : World Player) (op : string) (v : pyval) (e : exn) :
  data !! "op" = Some (VStr op) ->
  op = "event" \/ op = "playerUpdate" ->
  data !! "guildId" = Some v ->
  py_int int_of_str v = Raised e ->
  fst (process_data update_state int_of_str data w) = Raised e /\
  self (snd (process_data update_state int_of_str data w)) = self w /\
  loop (snd (process_data update_state int_of_str data w)) = loop w /\
  dispatched (trace (snd (process_data update_state int_of_str data w))) = dispatched (trace w).
Proof.
  intros Hop Hwhich Hid Hint. pose proof (py_int_not_KeyError _ _ Hint) as Hk.
  unfold process_data. rewrite (dict_get_op _ _ Hop).
  destruct Hwhich as [-> | ->]; py_tests; py_unfold;
    unfold lookup_player, subscript; py_unfold; rewrite Hid, Hint; cbn;
    rewrite Hk; cbn; repeat split; try reflexivity.
  unfold dispatched. rewrite omap_app. cbn. apply app_nil_r.
Qed.

(** X5: a [playerUpdate] frame for a registered player hands the frame to
    that player's [update_state] once; the player is left as the call left
    it, also when the call raised, every other player and the rest of the
    object are untouched, and nothing is dispatched. *)
Theorem process_data_player_update
    (data : frame) (w : World Player) (v : pyval) (guild : Z) (p p' : Player)
    (r : outcome unit) :
  data !! "op" = Some (VStr "playerUpdate") ->
  data !! "guildId" = Some v ->
  py_int int_of_str v = Returned guild ->
  players (_node (self w)) !! guild = Some p ->
  update_state data p = (r, p') ->
  let w' := snd (process_data update_state int_of_str data w) in
  fst (process_data update_state int_of_str data w)
  = match r with
    | Raised e => if is_KeyError e then Returned tt else Raised e
    | Returned _ => Returned tt
    end /\
  self w' = with_node (with_players (<[guild := p']> (players (_node (self w))))) (self w) /\
  (forall other, other <> guild ->
     players (_node (self w')) !! other = players (_node (self w)) !! other) /\
  loop w' = loop w /\
  trace w' = trace w ++ [E_log DEBUG "WEBSOCKET | op: playerUpdate"; E_update_state guild].
Proof.
  intros Hop Hid Hint Hhit Hup. unfold process_data. rewrite (dict_get_op _ _ Hop).
  py_tests. py_unfold.
  erewrite lookup_player_hit by eauto. cbn [fst snd].
  unfold call_update_state. py_unfold. rewrite Hup. cbn.
  destruct r as [[]|e]; cbn; [|destruct (is_KeyError e); cbn];
    rewrite <- app_assoc; repeat split; try reflexivity;
    intros other Hne; apply lookup_insert_ne; congruence.
Qed.

(** X6: an [event] frame for a registered player that carries no [type]
    raises [KeyError]: the lookup of ['type'] stands outside the [try], so
    this [KeyError] is not absorbed as the one of a missing [guildId] is. *)
Theorem process_data_event_without_type
    (data : frame) (w : World Player) (v : pyval) (guild : Z) (p : Player) :
  data !! "op" = Some (VStr "event") ->
  data !! "guildId" = Some v ->
  py_int int_of_str v = Returned guild ->
  players (_node (self w)) !! guild = Some p ->
  data !! "type" = None ->
  process_data update_state int_of_str data w = (Raised KeyError, w).
Proof.
  intros Hop Hid Hint Hhit Hty. unfold process_data.
  rewrite (dict_get_op _ _ Hop). py_tests. py_unfold.
  erewrite lookup_player_hit by eauto. cbn [fst snd].
  unfold subscript. rewrite lookup_insert_ne by discriminate. rewrite Hty.
  py_unfold. destruct w; reflexivity.
Qed.

(** * Further properties of connecting and sending *)


(** X8: after [_connect] the node is unavailable exactly when a handshake
    was attempted and raised, and the last-failure record holds that error;
    in every other case the node is available and the record is empty. *)
Theorem connect_availability
    (h : outcome ClientWebSocketResponse) (w : World Player) :
  let w' := snd (_connect h w) in
  match h with
  | Raised error =>
      if is_connected (self w)
      then available (_node (self w')) = true /\ _last_exc (self w') = None
      else available (_node (self w')) = false /\ _last_exc (self w') = Some error
  | Returned _ => available (_node (self w')) = true /\ _last_exc (self w') = None
  end.
Proof.
  unfold _connect, ws_connect. py_unfold.
  destruct (is_connected (self w)) eqn:Hc; cbn [negb].
  2: destruct h as [ws|error]; [|destruct (is_401 error)].
  all: cbn; destruct (_task (self w)) as [t|]; cbn.
  all: repeat match goal with
         | |- context [if ?b then _ else _] => destruct b
         end; cbn.
  all: try destruct h; split; reflexivity.
Qed.

(** X9: a handshake that returns a connection already closed still counts
    as completed: the connection is installed, the node is marked available,
    the failure record is cleared and a pump is started if [_task] held
    none, but the object is not connected and node-ready is not
    dispatched. *)
Theorem connect_closed_handshake (ws : ClientWebSocketResponse) (w : World Player) :
  is_connected (self w) = false ->
  closed ws = true ->
  let w' := snd (_connect (Returned ws) w) in
  _websocket (self w') = Some ws /\
  is_connected (self w') = false /\
  available (_node (self w')) = true /\
  _last_exc (self w') = None /\
  loop w' = loop w ++ match _task (self w) with
                      | Some _ => []
                      | None => [Pending (Co_listen L_entry)]
                      end /\
  dispatched (trace w') = dispatched (trace w).
Proof.
  intros Hc Hclosed. unfold _connect, ws_connect. py_unfold. rewrite Hc. cbn.
  destruct (_task (self w)) as [t|]; cbn; unfold is_connected; cbn;
    rewrite ?Hclosed; cbn; unfold dispatched; rewrite ?omap_app; cbn;
    rewrite ?Hclosed; cbn; rewrite ?app_nil_r; repeat split; reflexivity.
Qed.

(** X10: when the object is connected but the message cannot be turned into
    text ([_dumps] raises, or it returns bytes that are not UTF-8), [_send]
    raises that error and writes nothing to the transport. *)
Theorem send_unserializable (data : frame) (w : World Player) (e : exn) :
  is_connected (self w) = true ->
  (_dumps (self w) data = Raised e \/
   exists d, _dumps (self w) data = Returned d /\ as_text d = Raised e) ->
  _send data w
  = (Raised e,
     {| self := self w; loop := loop w;
        trace := trace w ++ [E_log DEBUG "WEBSOCKET | Sending Payload"] |}) /\
  sent (trace (snd (_send data w))) = sent (trace w).
Proof.
  intros Hc Hbad. unfold _send. py_unfold. rewrite Hc.
  destruct Hbad as [Hd | (d & Hd & Ht)]; rewrite Hd; cbn; rewrite ?Ht; cbn;
    unfold sent; rewrite omap_app; cbn; rewrite app_nil_r; split; reflexivity.
Qed.

(** * Further properties of the message pump *)

(** X11: a message that is not [CLOSED] and decodes to a frame is handed
    over, not handled: the pump creates one task to process the frame, makes
    no other change to the object, dispatches nothing itself, and is back at
    its receive with the backoff it had. *)
Theorem listen_hands_frame_over
    (i : nat) (backoff : ExponentialBackoff.t) (msg : WSMessage) (data : frame)
    (ws : ClientWebSocketResponse) (w : World Player) :
  loop w !! i = Some (Pending (Co_listen (L_receive backoff))) ->
  is_CLOSED (msg_type msg) = false ->
  msg_json msg = Returned data ->
  _websocket (self w) = Some ws ->
  run update_state backoff_cap int_of_str i (A_received (Returned msg)) w
  = {| self := self w;
       loop := loop w ++ [Pending (Co_process_data data)];
       trace := trace w ++ [E_log DEBUG "WEBSOCKET | Received Payload";
                            E_receive (ws_id ws)] |}.
Proof.
  intros Hi Hty Hjson Hws. unfold run. rewrite Hi. cbn [resume]. py_unfold.
  unfold _listen_received, receive. rewrite Hty. py_unfold. rewrite Hjson. cbn.
  rewrite Hws. cbn. rewrite <- app_assoc. f_equal.
  pose proof (lookup_lt_Some _ _ _ Hi) as Hlt.
  rewrite insert_app_l by exact Hlt. rewrite list_insert_id by exact Hi. reflexivity.
Qed.

(** X12: after its sleep the pump asks for a reconnect, by creating one
    [_connect] task, exactly when the connection it finds is closed; it
    attempts no handshake itself and goes back to its receive with the
    backoff it had. *)
Theorem listen_wakes
    (i : nat) (backoff : ExponentialBackoff.t) (ws : ClientWebSocketResponse)
    (w : World Player) :
  loop w !! i = Some (Pending (Co_listen (L_sleep backoff))) ->
  _websocket (self w) = Some ws ->
  run update_state backoff_cap int_of_str i A_go w
  = {| self := self w;
       loop := <[i := Pending (Co_listen (L_receive backoff))]>
                 (loop w ++ if closed ws then [Pending Co_connect] else []);
       trace := trace w ++ [E_receive (ws_id ws)] |}.
Proof.
  intros Hi Hws. unfold run. rewrite Hi. cbn [resume]. py_unfold.
  unfold _listen_woken, receive. py_unfold. unfold is_connected. rewrite Hws.
  destruct (closed ws); cbn; rewrite Hws; cbn; rewrite ?app_nil_r; reflexivity.
Qed.

(** X13: with auto-reconnect on, a [CLOSED] message makes the pump mark the
    object closed, take the next delay of its backoff and go to sleep for
    it: nothing is dispatched, no task is created and [_task] keeps its
    handle; the reconnect is only asked for after the sleep. *)
Theorem listen_closed_with_auto_reconnect
    (i : nat) (backoff : ExponentialBackoff.t) (msg : WSMessage) (w : World Player) :
  loop w !! i = Some (Pending (Co_listen (L_receive backoff))) ->
  is_CLOSED (msg_type msg) = true ->
  auto_reconnect (self w) = true ->
  run update_state backoff_cap int_of_str i (A_received (Returned msg)) w
  = {| self := with_closed (Some true) (self w);
       loop := <[i := Pending (Co_listen (L_sleep (snd (ExponentialBackoff.delay backoff))))]>
                 (loop w);
       trace := trace w
                ++ [E_log DEBUG "WEBSOCKET | Close data";
                    E_log WARNING "WEBSOCKET | Connection closed:: Retrying connection";
                    E_sleep (fst (ExponentialBackoff.delay backoff))] |}.
Proof.
  intros Hi Hty Hauto. unfold run. rewrite Hi. cbn [resume]. py_unfold.
  unfold _listen_received. rewrite Hty. py_unfold. cbn. rewrite Hauto. cbn.
  rewrite <- !app_assoc. reflexivity.
Qed.

(** * What no run does *)

Section Respects.

Variable R : World Player -> World Player -> Prop.
Hypothesis R_refl : forall w, R w w.
Hypothesis R_trans : forall w1 w2 w3, R w1 w2 -> R w2 w3 -> R w1 w3.

Lemma respects_ret {A} (a : A) : respects R (ret a).
Proof. intros w. apply R_refl. Qed.

Lemma respects_raise {A} (e : exn) : respects R (raise (A := A) e).
Proof. intros w. apply R_refl. Qed.

Lemma respects_lift {A} (r : outcome A) : respects R (lift r).
Proof. intros w. apply R_refl. Qed.

Lemma respects_gets {A} (f : World Player -> A) : respects R (gets f).
Proof. intros w. apply R_refl. Qed.

Lemma respects_bind {A B} (m : M (World Player) A) (k : A -> M (World Player) B) :
  respects R m -> (forall a, respects R (k a)) -> respects R (bind m k).
Proof.
  intros Hm Hk w. unfold bind. specialize (Hm w).
  destruct (m w) as [[a|e] w1]; cbn in *; [|exact Hm].
  eapply R_trans; [exact Hm | apply Hk].
Qed.

Lemma respects_try_except {A} (body : M (World Player) A) (catches : exn -> bool)
    (handler : exn -> M (World Player) A) :
  respects R body -> (forall e, respects R (handler e)) ->
  respects R (try_except body catches handler).
Proof.
  intros Hb Hh w. unfold try_except. specialize (Hb w).
  destruct (body w) as [[a|e] w1]; cbn in *; [exact Hb|].
  destruct (catches e); [|exact Hb].
  eapply R_trans; [exact Hb | apply Hh].
Qed.

End Respects.

(** Takes a segment apart as [keeps_tac] does, for any reflexive and
    transitive relation; [solve] settles the assignments and calls. *)
Ltac respects_tac Hrefl Htrans solve :=
  repeat first
    [ apply respects_ret; exact Hrefl
    | apply respects_raise; exact Hrefl
    | apply respects_lift; exact Hrefl
    | apply respects_gets; exact Hrefl
    | match goal with
      | |- respects _ (emit _) => intros ?; solve
      | |- respects _ (log _ _) => intros ?; solve
      | |- respects _ (dispatch _ _) => intros ?; solve
      | |- respects _ (update _) => intros ?; solve
      | |- respects _ (create_task _) => intros ?; solve
      | |- respects _ (if ?b then _ else _) => destruct b
      | |- respects _ (match ?x with _ => _ end) => destruct x
      | |- respects _ (let (_, _) := ?x in _) => destruct x
      end
    | progress cbv zeta
    | apply (respects_bind _ Htrans); [|intros]
    | apply (respects_try_except _ Htrans); [|intros] ].

(** ** The dispatcher's footprint *)

Lemma dispatcher_only_refl (w : World Player) : dispatcher_only w w.
Proof. repeat split. Qed.

Lemma dispatcher_only_trans (w1 w2 w3 : World Player) :
  dispatcher_only w1 w2 -> dispatcher_only w2 w3 -> dispatcher_only w1 w3.
Proof. unfold dispatcher_only. intuition congruence. Qed.

Ltac solve_dispatcher_only :=
  unfold dispatcher_only, emit, log, dispatch, update, modify, with_self;
  cbn; unfold handshakes, sent, sleeps; rewrite ?omap_app; cbn;
  rewrite ?app_nil_r; repeat split; reflexivity.

(** X14: whatever the frame, and whether it returns or raises,
    [process_data] leaves the connection, the pump's handle, the failure
    record, the node's availability and the tasks as they were, and it
    makes no call on the transport: no handshake, nothing sent, no sleep.
    Only the node's statistics and players and the log can differ. *)
Theorem process_data_footprint (data : frame) (w : World Player) :
  dispatcher_only w (snd (process_data update_state int_of_str data w)).
Proof.
  revert w. change (respects dispatcher_only (process_data update_state int_of_str data)).
  unfold process_data, lookup_player, subscript, call_update_state.
  respects_tac dispatcher_only_refl dispatcher_only_trans solve_dispatcher_only.
Qed.

(** ** The connection field is never cleared *)

Lemma connection_kept_refl (w : World Player) : connection_kept w w.
Proof. intros H. exact H. Qed.

Lemma connection_kept_trans (w1 w2 w3 : World Player) :
  connection_kept w1 w2 -> connection_kept w2 w3 -> connection_kept w1 w3.
Proof. unfold connection_kept. auto. Qed.

Ltac solve_connection_kept :=
  unfold connection_kept, emit, log, dispatch, update, create_task, modify, with_self;
  cbn; first [tauto | intros _; eexists; reflexivity].

Lemma connect_keeps_connection (h : outcome ClientWebSocketResponse) :
  respects connection_kept (_connect (Player := Player) h).
Proof.
  unfold _connect, ws_connect.
  respects_tac connection_kept_refl connection_kept_trans solve_connection_kept.
Qed.

Lemma process_data_keeps_connection (data : frame) :
  respects connection_kept (process_data update_state int_of_str data).
Proof.
  unfold process_data, lookup_player, subscript, call_update_state.
  respects_tac connection_kept_refl connection_kept_trans solve_connection_kept.
Qed.

Lemma listen_entry_keeps_connection :
  respects connection_kept (_listen_entry (Player := Player) backoff_cap).
Proof.
  unfold _listen_entry, receive.
  respects_tac connection_kept_refl connection_kept_trans solve_connection_kept.
Qed.

Lemma listen_received_keeps_connection (b : ExponentialBackoff.t) (msg : WSMessage) :
  respects connection_kept (_listen_received (Player := Player) b msg).
Proof.
  unfold _listen_received, receive.
  respects_tac connection_kept_refl connection_kept_trans solve_connection_kept.
Qed.

Lemma listen_woken_keeps_connection (b : ExponentialBackoff.t) :
  respects connection_kept (_listen_woken (Player := Player) b).
Proof.
  unfold _listen_woken, receive.
  respects_tac connection_kept_refl connection_kept_trans solve_connection_kept.
Qed.

Lemma run_keeps_connection (i : nat) (a : answer) (w : World Player) :
  connection_kept w (run update_state backoff_cap int_of_str i a w).
Proof.
  unfold run.
  destruct (loop w !! i) as [[c| |e]|]; try apply connection_kept_refl.
  destruct (resume update_state backoff_cap int_of_str c a) as [segment|] eqn:Hres;
    [|apply connection_kept_refl].
  assert (Hseg : respects connection_kept segment).
  { destruct c as [[|b|b]| |data], a as [|r|r]; cbn in Hres; try discriminate;
      injection Hres as <-.
    - apply (respects_bind _ connection_kept_trans);
        [apply listen_entry_keeps_connection | intros; apply respects_ret, connection_kept_refl].
    - apply (respects_bind _ connection_kept_trans);
        [apply respects_lift, connection_kept_refl | intros msg].
      apply (respects_bind _ connection_kept_trans);
        [apply listen_received_keeps_connection | intros; apply respects_ret, connection_kept_refl].
    - apply (respects_bind _ connection_kept_trans);
        [apply listen_woken_keeps_connection | intros; apply respects_ret, connection_kept_refl].
    - apply (respects_bind _ connection_kept_trans);
        [apply connect_keeps_connection | intros; apply respects_ret, connection_kept_refl].
    - apply (respects_bind _ connection_kept_trans);
        [apply process_data_keeps_connection | intros; apply respects_ret, connection_kept_refl]. }
  specialize (Hseg w). destruct (segment w) as [r w1]. exact Hseg.
Qed.

(** X15: no run clears the connection field: once [_websocket] holds a
    connection object it holds one for good, live or closed, whatever the
    transport, the peer and the scheduler do. *)
Theorem connection_never_cleared (evs : list event) (w : World Player) :
  is_Some (_websocket (self w)) ->
  is_Some (_websocket (self (exec update_state backoff_cap int_of_str evs w))).
Proof.
  revert w. induction evs as [|ev evs IH]; intros w Hw; cbn; [exact Hw|].
  apply IH. destruct ev as [i a| |]; cbn [step].
  - apply run_keeps_connection. exact Hw.
  - destruct Hw as [c Hc]. unfold with_self, close_transport. cbn.
    rewrite Hc. cbn. eexists; reflexivity.
  - exact Hw.
Qed.

(** ** Never two pumps *)

Lemma pumps_nil_lookup (l : list task) (i : nat) (t : task) :
  pumps l = [] -> l !! i = Some t -> pump_of t = None.
Proof.
  intros Hnil Hi. destruct (pumps_split l i t Done Hi) as [H1 _].
  rewrite Hnil in H1. destruct (pump_of t); [|reflexivity].
  destruct (pumps (take i l)); discriminate.
Qed.

(** A pump that finds the object closed either ends, or sleeps with
    [_task] as it was; it creates no task. *)
Lemma listen_closed_any
    (backoff : ExponentialBackoff.t) (msg : WSMessage) (w : World Player) :
  is_CLOSED (msg_type msg) = true ->
  loop (snd (_listen_received backoff msg w)) = loop w /\
  match fst (_listen_received backoff msg w) with
  | Returned (Some _) => _task (self (snd (_listen_received backoff msg w))) = _task (self w)
  | _ => True
  end.
Proof.
  intros Hty. unfold _listen_received. rewrite Hty. py_unfold. cbn.
  destruct (auto_reconnect (self w)); cbn; [split; reflexivity|].
  destruct (_task (self w)); cbn; split; reflexivity || exact I.
Qed.

Lemma one_pump_other_step (w w1 : World Player) (i : nat) (c : coroutine) (t' : task) :
  one_pump w ->
  loop w !! i = Some (Pending c) ->
  pump_of (Pending c) = None ->
  pump_of t' = None ->
  quiet w w1 ->
  one_pump {| self := self w1; loop := <[i := t']> (loop w1); trace := trace w1 |}.
Proof.
  intros Hone Hi Hc Ht' (_ & Ht & _ & extra & Hl & Hx).
  unfold one_pump in *. cbn [self loop trace]. rewrite Ht, Hl.
  rewrite (pumps_insert_app _ _ _ _ _ Hi Hx), (pumps_insert_other _ _ _ _ Hi Hc Ht').
  exact Hone.
Qed.

Lemma one_pump_pump_step (w w1 : World Player) (i : nat) (pc : listen_pc) (t' : task)
    (extra : list task) :
  one_pump w ->
  loop w !! i = Some (Pending (Co_listen pc)) ->
  loop w1 = loop w ++ extra ->
  pumps extra = [] ->
  match pump_of t' with
  | Some _ => _task (self w1) = _task (self w)
  | None => True
  end ->
  one_pump {| self := self w1; loop := <[i := t']> (loop w1); trace := trace w1 |}.
Proof.
  intros Hone Hi Hl Hx Ht. unfold one_pump in *. cbn [self loop trace].
  rewrite Hl, (pumps_insert_app _ _ _ _ _ Hi Hx).
  destruct (pumps (loop w)) as [|pc0 [|pc1 rest]] eqn:Hpumps.
  - pose proof (pumps_nil_lookup _ _ _ Hpumps Hi). discriminate.
  - destruct (pumps_insert_sole _ _ _ t' pc pc0 Hi eq_refl Hpumps) as [_ Hins].
    rewrite Hins. destruct (pump_of t'); cbn; [rewrite Ht; exact Hone | exact I].
  - contradiction.
Qed.

Lemma one_pump_run (i : nat) (a : answer) (w : World Player) :
  one_pump w -> one_pump (run update_state backoff_cap int_of_str i a w).
Proof.
  intros Hone. unfold run.
  destruct (loop w !! i) as [[c| |e]|] eqn:Hi; try exact Hone.
  destruct c as [[|b|b]| |data], a as [|r|r]; cbn [resume]; try exact Hone.
  - unfold bind, ret.
    destruct (keeps_listen_entry w) as (_ & Ht & _ & extra & Hl & Hx).
    destruct (_listen_entry backoff_cap w) as [[pc|e] w1]; cbn [fst snd settle] in *;
      apply (one_pump_pump_step w w1 i L_entry _ extra); cbn; auto.
  - unfold bind, ret, lift. destruct r as [msg|e]; cbn [settle].
    2: { apply (one_pump_pump_step w w i (L_receive b) _ []); cbn; auto.
         symmetry. apply app_nil_r. }
    destruct (is_CLOSED (msg_type msg)) eqn:Hty.
    + destruct (listen_closed_any b msg w Hty) as [Hl Ht].
      destruct (_listen_received b msg w) as [[[pc|]|e] w1];
        cbn [fst snd fmap option_fmap option_map settle] in *;
        apply (one_pump_pump_step w w1 i (L_receive b) _ []); cbn; auto;
        rewrite app_nil_r; exact Hl.
    + destruct (keeps_listen_data b msg Hty w) as (_ & Ht & _ & extra & Hl & Hx).
      destruct (_listen_received b msg w) as [[[pc|]|e] w1];
        cbn [fst snd fmap option_fmap option_map settle] in *;
        apply (one_pump_pump_step w w1 i (L_receive b) _ extra); cbn; auto.
  - unfold bind, ret.
    destruct (keeps_listen_woken b w) as (_ & Ht & _ & extra & Hl & Hx).
    destruct (_listen_woken b w) as [[[pc|]|e] w1];
      cbn [fst snd fmap option_fmap option_map settle] in *;
      apply (one_pump_pump_step w w1 i (L_sleep b) _ extra); cbn; auto.
  - unfold bind, ret.
    assert (Hstep : forall t', pump_of t' = None ->
              one_pump {| self := self (snd (_connect r w));
                          loop := <[i := t']> (loop (snd (_connect r w)));
                          trace := trace (snd (_connect r w)) |}).
    { intros t' Ht'.
      destruct (connect_effect r w) as (Ha & Hs & [[Ht Hl] | (Hnone & Hsome & Hl)]).
      - apply (one_pump_other_step w _ i Co_connect t' Hone Hi eq_refl Ht').
        repeat split; try assumption. exists []. rewrite app_nil_r.
        split; [exact Hl | reflexivity].
      - unfold one_pump in *. cbn [self loop trace]. rewrite Hsome, Hl.
        pose proof (lookup_lt_Some _ _ _ Hi) as Hlt.
        rewrite insert_app_l by exact Hlt. unfold pumps at 1. rewrite omap_app.
        fold (pumps (<[i := t']> (loop w))).
        rewrite (pumps_insert_other _ _ _ _ Hi eq_refl Ht'). cbn.
        destruct (pumps (loop w)) as [|pc0 [|pc1 rest]]; cbn;
          [discriminate | contradiction | contradiction]. }
    destruct (_connect r w) as [[[]|e] w1]; cbn [snd settle] in *; apply Hstep; reflexivity.
  - unfold bind, ret.
    pose proof (keeps_process_data data w) as Hq.
    destruct (process_data update_state int_of_str data w) as [[[]|e] w1]; cbn [snd settle] in *;
      apply (one_pump_other_step w w1 i (Co_process_data data)); auto.
Qed.

Lemma one_pump_step (ev : event) (w : World Player) :
  one_pump w -> one_pump (step update_state backoff_cap int_of_str w ev).
Proof.
  intros Hone. destruct ev as [i a| |]; cbn [step].
  - apply one_pump_run. exact Hone.
  - unfold one_pump, with_self, close_transport in *. cbn [self loop trace].
    destruct (_websocket (self w)); exact Hone.
  - unfold one_pump, create_task in *. cbn [snd self loop trace].
    unfold pumps at 1. rewrite omap_app. cbn. rewrite app_nil_r. exact Hone.
Qed.

Lemma one_pump_exec (evs : list event) (w : World Player) :
  one_pump w -> one_pump (exec update_state backoff_cap int_of_str evs w).
Proof.
  revert w. induction evs as [|ev evs IH]; intros w Hone; cbn; [exact Hone|].
  apply IH, one_pump_step, Hone.
Qed.

(** X16: in no run from an object without tasks are two pumps suspended at
    once, with auto-reconnect on or off; and while a pump is suspended
    [_task] holds a handle. *)
Theorem never_two_pumps (evs : list event) (w0 : World Player) :
  loop w0 = [] ->
  let w := exec update_state backoff_cap int_of_str evs w0 in
  (length (pumps (loop w)) <= 1)%nat /\
  (pumps (loop w) <> [] -> _task (self w) <> None).
Proof.
  intros Hloop w.
  assert (Hone : one_pump w).
  { apply one_pump_exec. unfold one_pump. rewrite Hloop. exact I. }
  unfold one_pump in Hone.
  destruct (pumps (loop w)) as [|pc [|pc' rest]]; cbn; [split; [lia | congruence] | | contradiction].
  split; [lia | intros _; exact Hone].
Qed.

(** ** A pump that fails is not replaced *)

Lemma pump_lost_run (i : nat) (a : answer) (w : World Player) :
  pump_lost w -> pump_lost (run update_state backoff_cap int_of_str i a w).
Proof.
  intros [Hnil Htask]. unfold run.
  destruct (loop w !! i) as [[c| |e]|] eqn:Hi; try (split; assumption).
  pose proof (pumps_nil_lookup _ _ _ Hnil Hi) as Hc.
  destruct c as [pc| |data]; [discriminate| |]; destruct a as [|r|r]; cbn [resume];
    try (split; assumption); unfold bind, ret.
  - destruct (connect_effect r w) as (_ & _ & [[Ht Hl] | (Hnone & _)]); [|contradiction].
    destruct (_connect r w) as [[[]|e] w1]; cbn [snd settle] in *; unfold pump_lost;
      cbn [self loop trace]; rewrite Ht, Hl;
      (erewrite pumps_insert_other; [| exact Hi | reflexivity | reflexivity]);
      split; assumption.
  - destruct (keeps_process_data data w) as (_ & Ht & _ & extra & Hl & Hx).
    destruct (process_data update_state int_of_str data w) as [[[]|e] w1]; cbn [snd settle] in *;
      unfold pump_lost; cbn [self loop trace]; rewrite Ht, Hl;
      rewrite (pumps_insert_app _ _ _ _ _ Hi Hx);
      (erewrite pumps_insert_other; [| exact Hi | reflexivity | reflexivity]);
      split; assumption.
Qed.

Lemma pump_lost_exec (evs : list event) (w : World Player) :
  pump_lost w -> pump_lost (exec update_state backoff_cap int_of_str evs w).
Proof.
  revert w. induction evs as [|ev evs IH]; intros w Hlost; cbn; [exact Hlost|].
  apply IH. destruct ev as [i a| |]; cbn [step].
  - apply pump_lost_run. exact Hlost.
  - destruct Hlost as [Hnil Htask]. unfold pump_lost, with_self, close_transport.
    cbn [self loop trace]. destruct (_websocket (self w)); split; assumption.
  - destruct Hlost as [Hnil Htask]. unfold pump_lost, create_task.
    cbn [snd self loop trace]. unfold pumps at 1. rewrite omap_app. cbn.
    rewrite app_nil_r. split; assumption.
Qed.

(** X17: a received message that is not [CLOSED] and whose payload does not
    decode ends the pump with the decoding error, and for good: [_task]
    keeps the dead task's handle, so no later [_connect], successful or not,
    starts another pump, and no frame is received again. *)
Theorem undecodable_payload_ends_pump
    (evs evs' : list event) (w0 : World Player) (i : nat)
    (backoff : ExponentialBackoff.t) (msg : WSMessage) (e : exn) :
  loop w0 = [] ->
  let w := exec update_state backoff_cap int_of_str evs w0 in
  loop w !! i = Some (Pending (Co_listen (L_receive backoff))) ->
  is_CLOSED (msg_type msg) = false ->
  msg_json msg = Raised e ->
  let w' := run update_state backoff_cap int_of_str i (A_received (Returned msg)) w in
  loop w' !! i = Some (Failed e) /\
  pumps (loop (exec update_state backoff_cap int_of_str evs' w')) = [] /\
  _task (self (exec update_state backoff_cap int_of_str evs' w')) <> None.
Proof.
  intros Hloop w Hi Hty Hjson w'.
  assert (Hone : one_pump w).
  { apply one_pump_exec. unfold one_pump. rewrite Hloop. exact I. }
  assert (Hw' : w' = {| self := self w; loop := <[i := Failed e]> (loop w);
                        trace := trace w ++ [E_log DEBUG "WEBSOCKET | Received Payload"] |}).
  { unfold w', run. rewrite Hi. cbn [resume]. py_unfold.
    unfold _listen_received. rewrite Hty. py_unfold. rewrite Hjson. reflexivity. }
  assert (Hlost : pump_lost w').
  { rewrite Hw'. unfold pump_lost. cbn [self loop trace]. unfold one_pump in Hone.
    destruct (pumps (loop w)) as [|pc0 [|pc1 rest]] eqn:Hpumps.
    - pose proof (pumps_nil_lookup _ _ _ Hpumps Hi). discriminate.
    - destruct (pumps_insert_sole _ _ _ (Failed e) _ pc0 Hi eq_refl Hpumps) as [_ Hins].
      rewrite Hins. split; [reflexivity | exact Hone].
    - contradiction. }
  split.
  - rewrite Hw'. cbn [loop]. apply list_lookup_insert_eq. eapply lookup_lt_Some. exact Hi.
  - apply (pump_lost_exec evs') in Hlost. exact Hlost.
Qed.

End Properties.

(** * The model at work *)

Lemma C2_witness :
  let msg := Demo.text_msg (Returned (Demo.event_frame "FooEvent")) in
  let w := run Demo.update_state Demo.cap Demo.int_of_str 1 (A_received (Returned msg))
             (Demo.connected true) in
  let w' := run Demo.update_state Demo.cap Demo.int_of_str 2 A_go w in
  dispatched (trace w') = [("wavelink_node_ready", None)] /\
  loop w' = [Done;
             Pending (Co_listen (L_receive (ExponentialBackoff.init 7 Demo.cap)));
             Failed TypeError] /\
  pumps (loop w') = [L_receive (ExponentialBackoff.init 7 Demo.cap)].
Proof.
  cbv zeta.
  destruct (C2_unknown_event_type Demo.update_state Demo.cap Demo.int_of_str 2
              (Demo.event_frame "FooEvent")
              (run Demo.update_state Demo.cap Demo.int_of_str 1
                 (A_received (Returned (Demo.text_msg (Returned (Demo.event_frame "FooEvent")))))
                 (Demo.connected true))
              (VStr "42") (VStr "FooEvent") 42 0%nat
              eq_refl eq_refl eq_refl eq_refl eq_refl eq_refl)
    as (Hd & _ & _ & Hl & Hp & _).
  - intros s Hs [= <-]. vm_compute in Hs.
    repeat (apply elem_of_cons in Hs as [[=]|Hs]). inversion Hs.
  - rewrite Hd, Hp, Hl. repeat split; reflexivity.
Defined.

(** C1, as stated, fails: after the reconnect has succeeded (the connection
    is live and node-ready was dispatched a second time), the delay slept at
    the next closure is 49, the third of the pump's delays, though the
    minimum is 1. *)
Lemma C1_no_reset_after_reconnect :
  let w1 := exec Demo.update_state Demo.cap Demo.int_of_str Demo.reconnect_run (Demo.start true) in
  let w2 := exec Demo.update_state Demo.cap Demo.int_of_str Demo.later_closure w1 in
  is_connected (self w1) = true /\
  dispatched (trace w1) = [("wavelink_node_ready", None); ("wavelink_node_ready", None)] /\
  sleeps (trace w1) = [1; 7] /\
  sleeps (trace w2) = [1; 7; 49] /\
  ExponentialBackoff.minimum 7 Demo.cap = 1 /\
  49 <> ExponentialBackoff.minimum 7 Demo.cap.
Proof. vm_compute. repeat split; try reflexivity. discriminate. Qed.

Lemma C1_witness :
  StronglySorted Z.le
    (sleeps (trace (exec Demo.update_state Demo.cap Demo.int_of_str
                      (Demo.reconnect_run ++ Demo.later_closure) (Demo.start true)))).
Proof.
  apply (C1_backoff_delays Demo.update_state Demo.cap Demo.int_of_str
           (Demo.reconnect_run ++ Demo.later_closure) (Demo.start true));
    reflexivity.
Defined.

(** C3, as stated, fails: the player's [update_state] raises [KeyError] on
    this frame, and [process_data] returns as if nothing had been raised. *)
Lemma C3_KeyError_absorbed :
  Demo.update_state (Demo.player_update "42") 0%nat = (Raised KeyError, 0%nat) /\
  players (_node (self (Demo.start true))) !! 42 = Some 0%nat /\
  fst (process_data Demo.update_state Demo.int_of_str (Demo.player_update "42") (Demo.start true))
  = Returned tt.
Proof. vm_compute. repeat split; reflexivity. Qed.

Lemma C3_witness :
  fst (process_data Demo.update_state Demo.int_of_str (Demo.player_update "42") (Demo.start true))
  = (if is_KeyError KeyError then Returned tt else Raised KeyError).
Proof.
  apply (C3_update_state_exception Demo.update_state Demo.int_of_str (Demo.player_update "42")
           (Demo.start true) (VStr "42") 42 0%nat 0%nat KeyError);
    reflexivity.
Defined.

(** C4, as stated, fails: these frames name no known session, one by a
    [guildId] that is not a number and one by a null [guildId], and
    processing them raises. *)
Lemma C4_non_integer_guild_raises :
  fst (process_data Demo.update_state Demo.int_of_str (Demo.player_update "forty-two")
         (Demo.start true))
  = Raised ValueError /\
  fst (process_data Demo.update_state Demo.int_of_str
         (<["guildId" := VNone]> (Demo.player_update "42")) (Demo.start true))
  = Raised TypeError.
Proof. vm_compute. split; reflexivity. Qed.

Lemma C4_witness :
  let unchanged :=
    {| self := self (Demo.start true); loop := loop (Demo.start true);
       trace := trace (Demo.start true) ++ [E_log DEBUG "WEBSOCKET | op: playerUpdate"] |} in
  process_data Demo.update_state Demo.int_of_str (Demo.player_update "7") (Demo.start true)
  = (Returned tt, unchanged) /\
  snd (process_data Demo.update_state Demo.int_of_str (Demo.player_update "forty-two")
         (Demo.start true))
  = unchanged.
Proof.
  split.
  - apply (proj1 (proj2 (C4_playerUpdate_unknown_session Demo.update_state
                           Demo.int_of_str (Demo.player_update "7") (Demo.start true)
                           eq_refl))
             (VStr "7") 7);
      reflexivity.
  - apply (proj2 (proj2 (C4_playerUpdate_unknown_session Demo.update_state
                           Demo.int_of_str (Demo.player_update "forty-two")
                           (Demo.start true) eq_refl))
             (VStr "forty-two") ValueError);
      reflexivity.
Defined.

Lemma C5_witness :
  _send Demo.stats_frame (Demo.start true) = (Returned tt, Demo.start true) /\
  sent (trace (snd (_send Demo.stats_frame (Demo.connected true)))) = [(1%nat, "{}")] /\
  sent (trace (snd (_send Demo.stats_frame (Demo.serializing (D_bytes Demo.e_acute)))))
  = [(1%nat, Demo.e_acute)].
Proof.
  split; [|split].
  - apply (C5_send Demo.stats_frame (Demo.start true)). reflexivity.
  - rewrite (proj1 (proj2 (C5_send Demo.stats_frame (Demo.connected true)))
               (Demo.conn 1) "{}");
      reflexivity.
  - rewrite (proj2 (proj2 (C5_send Demo.stats_frame
                             (Demo.serializing (D_bytes Demo.e_acute))))
               (Demo.conn 1) Demo.e_acute);
      reflexivity.
Defined.

Lemma C6_witness :
  let w' := run Demo.update_state Demo.cap Demo.int_of_str 1 (A_received (Returned Demo.closed_msg))
              (Demo.connected false) in
  loop w' = [Done; Done] /\
  _task (self w') = None /\
  dispatched (trace w')
  = [("wavelink_node_ready", None); ("wavelink_node_connection_closed", None)].
Proof.
  destruct (C6_closed_without_auto_reconnect Demo.update_state Demo.cap Demo.int_of_str 1
              (ExponentialBackoff.init 7 Demo.cap) Demo.closed_msg (Demo.connected false))
    as (Hl & Ht & Hd & _); try reflexivity.
  cbv zeta. rewrite Hl, Ht, Hd. repeat split; reflexivity.
Defined.

Lemma C7_witness :
  exists w',
    _connect (Returned (Demo.conn 1)) (Demo.start true) = (Returned tt, w') /\
    is_connected (self w') = true /\
    available (_node (self w')) = true /\
    dispatched (trace w') = [("wavelink_node_ready", None)].
Proof.
  destruct (C7_connect_success (Demo.conn 1) (Demo.start true))
    as (w' & Hrun & Hc & _ & Ha & _ & _ & Hd); try reflexivity.
  exists w'. repeat split; assumption.
Defined.

Lemma C8_witness :
  exists w',
    _connect (Raised (WSServerHandshakeError 401)) (Demo.start true) = (Returned tt, w') /\
    _last_exc (self w') = Some (WSServerHandshakeError 401) /\
    available (_node (self w')) = false /\
    dispatched (trace w') = [].
Proof.
  destruct (C8_connect_failure (WSServerHandshakeError 401) (Demo.start true))
    as (w' & uri & Hrun & He & Ha & _ & _ & Hd & _); try reflexivity.
  exists w'. repeat split; assumption.
Defined.

Lemma C9_witness :
  let w' := snd (process_data Demo.update_state Demo.int_of_str Demo.stats_frame
                   (Demo.start true)) in
  stats (_node (self w')) = Some {| snapshot := Demo.stats_frame |} /\
  players (_node (self w')) = players (_node (self (Demo.start true))) /\
  trace w' = [].
Proof.
  destruct (C9_stats_frame Demo.update_state Demo.int_of_str Demo.stats_frame
              (Demo.start true) eq_refl)
    as (w' & Hrun & Hstats & Htrace & _ & _ & Hplayers & _).
  cbv zeta. rewrite Hrun. cbn [snd]. rewrite Hstats, Hplayers, Htrace.
  repeat split; reflexivity.
Defined.

Lemma C10_witness :
  exists w' w'',
    _connect (Raised TypeError) (Demo.connected true) = (Returned tt, w') /\
    _connect (Raised TypeError) w' = (Returned tt, w'') /\
    _websocket (self w'') = Some (Demo.conn 1) /\
    dispatched (trace w'')
    = [("wavelink_node_ready", None); ("wavelink_node_ready", None);
       ("wavelink_node_ready", None)].
Proof.
  destruct (C10_connect_while_connected (Raised TypeError) (Raised TypeError)
              (Demo.connected true))
    as (w' & w'' & H1 & H2 & _ & _ & _ & _ & Hws & _ & Hd); try reflexivity.
  exists w', w''. repeat split; assumption.
Defined.

(** * The further properties at work *)

Lemma process_data_other_op_witness :
  process_data Demo.update_state Demo.int_of_str {[ "guildId" := VStr "42" ]} (Demo.start true)
  = (Returned tt, Demo.start true).
Proof.
  apply (process_data_other_op Demo.update_state). intros s _. vm_compute. discriminate.
Defined.

Lemma process_data_known_event_witness :
  exists payload,
    dispatched (trace (snd (process_data Demo.update_state Demo.int_of_str
                              (Demo.event_frame "TrackEndEvent") (Demo.start true))))
    = [("wavelink_track_end", Some payload)] /\
    event_data payload !! "player" = Some (VPlayer 42).
Proof.
  destruct (process_data_known_event Demo.update_state Demo.int_of_str (Demo.event_frame "TrackEndEvent")
              (Demo.start true) (VStr "42") 42 0%nat "TrackEndEvent" "wavelink_track_end"
              eq_refl eq_refl eq_refl eq_refl eq_refl (list_elem_of_here _ _))
    as (payload & Hrun & Hdata).
  exists payload. rewrite Hrun, Hdata. split; reflexivity.
Defined.

Lemma process_data_event_without_player_witness :
  process_data Demo.update_state Demo.int_of_str
    (<["guildId" := VStr "7"]> (Demo.event_frame "TrackEndEvent")) (Demo.start true)
  = (Returned tt, Demo.start true).
Proof.
  apply (process_data_event_without_player Demo.update_state); [reflexivity|].
  right. exists (VStr "7"), 7. repeat split; reflexivity.
Defined.

Lemma process_data_bad_guild_id_witness :
  fst (process_data Demo.update_state Demo.int_of_str (Demo.player_update "forty-two") (Demo.start true))
  = Raised ValueError.
Proof.
  apply (process_data_bad_guild_id Demo.update_state Demo.int_of_str (Demo.player_update "forty-two")
           (Demo.start true) "playerUpdate" (VStr "forty-two") ValueError);
    try reflexivity.
  right. reflexivity.
Defined.

Lemma process_data_player_update_witness :
  players (_node (self (snd (process_data Demo.update_state Demo.int_of_str Demo.state_update
                               (Demo.start true))))) !! 42
  = Some 1%nat.
Proof.
  destruct (process_data_player_update Demo.update_state Demo.int_of_str Demo.state_update
              (Demo.start true) (VStr "42") 42 0%nat 1%nat (Returned tt)
              eq_refl eq_refl eq_refl eq_refl eq_refl)
    as (_ & Hself & _).
  rewrite Hself. reflexivity.
Defined.

Lemma process_data_event_without_type_witness :
  process_data Demo.update_state Demo.int_of_str Demo.untyped_event (Demo.start true)
  = (Raised KeyError, Demo.start true).
Proof.
  apply (process_data_event_without_type Demo.update_state Demo.int_of_str Demo.untyped_event
           (Demo.start true) (VStr "42") 42 0%nat);
    reflexivity.
Defined.

Lemma connect_closed_handshake_witness :
  let w' := snd (_connect (Returned {| ws_id := 1; closed := true |}) (Demo.start true)) in
  available (_node (self w')) = true /\
  is_connected (self w') = false /\
  dispatched (trace w') = [].
Proof.
  destruct (connect_closed_handshake {| ws_id := 1; closed := true |} (Demo.start true)
              eq_refl eq_refl)
    as (_ & Hc & Ha & _ & _ & Hd).
  cbv zeta. rewrite Hc, Ha, Hd. repeat split; reflexivity.
Defined.

Lemma send_unserializable_witness :
  fst (_send Demo.stats_frame Demo.with_binary_dumps) = Raised UnicodeDecodeError /\
  sent (trace (snd (_send Demo.stats_frame Demo.with_binary_dumps))) = [].
Proof.
  destruct (send_unserializable Demo.stats_frame Demo.with_binary_dumps UnicodeDecodeError
              eq_refl (or_intror (ex_intro _ _ (conj eq_refl eq_refl))))
    as [Hrun Hsent].
  rewrite Hsent, Hrun. split; reflexivity.
Defined.

Lemma listen_hands_frame_over_witness :
  loop (run Demo.update_state Demo.cap Demo.int_of_str 1
          (A_received (Returned (Demo.text_msg (Returned Demo.stats_frame))))
          (Demo.connected true))
  = loop (Demo.connected true) ++ [Pending (Co_process_data Demo.stats_frame)].
Proof.
  rewrite (listen_hands_frame_over Demo.update_state Demo.cap Demo.int_of_str 1
             (ExponentialBackoff.init 7 Demo.cap)
             (Demo.text_msg (Returned Demo.stats_frame)) Demo.stats_frame (Demo.conn 1)
             (Demo.connected true));
    reflexivity.
Defined.

Lemma listen_wakes_witness :
  loop (run Demo.update_state Demo.cap Demo.int_of_str 1 A_go Demo.asleep)
  = [Done;
     Pending (Co_listen (L_receive (snd (ExponentialBackoff.delay
                                           (ExponentialBackoff.init 7 Demo.cap)))));
     Pending Co_connect].
Proof.
  rewrite (listen_wakes Demo.update_state Demo.cap Demo.int_of_str 1
             (snd (ExponentialBackoff.delay (ExponentialBackoff.init 7 Demo.cap)))
             {| ws_id := 1; closed := true |} Demo.asleep);
    reflexivity.
Defined.

Lemma listen_closed_with_auto_reconnect_witness :
  sleeps (trace (run Demo.update_state Demo.cap Demo.int_of_str 1 (A_received (Returned Demo.closed_msg))
                   (Demo.connected true)))
  = [1].
Proof.
  rewrite (listen_closed_with_auto_reconnect Demo.update_state Demo.cap Demo.int_of_str 1
             (ExponentialBackoff.init 7 Demo.cap) Demo.closed_msg (Demo.connected true));
    reflexivity.
Defined.

Lemma connection_never_cleared_witness :
  is_Some (_websocket (self (exec Demo.update_state Demo.cap Demo.int_of_str Demo.later_closure
                               (Demo.connected true)))).
Proof.
  apply (connection_never_cleared Demo.update_state Demo.cap Demo.int_of_str). eexists. reflexivity.
Defined.

Lemma never_two_pumps_witness :
  (length (pumps (loop (exec Demo.update_state Demo.cap Demo.int_of_str
                          (Demo.reconnect_run ++ Demo.later_closure) (Demo.start false))))
   <= 1)%nat.
Proof.
  apply (never_two_pumps Demo.update_state Demo.cap Demo.int_of_str
           (Demo.reconnect_run ++ Demo.later_closure) (Demo.start false)).
  reflexivity.
Defined.

Lemma undecodable_payload_ends_pump_witness :
  let w' := run Demo.update_state Demo.cap Demo.int_of_str 1
              (A_received (Returned (Demo.text_msg (Raised ValueError))))
              (exec Demo.update_state Demo.cap Demo.int_of_str Demo.first_connection (Demo.start true)) in
  pumps (loop (exec Demo.update_state Demo.cap Demo.int_of_str
                 [TransportClosed; Call_connect; Run 2 (A_handshake (Returned (Demo.conn 2)))]
                 w')) = [].
Proof.
  apply (undecodable_payload_ends_pump Demo.update_state Demo.cap Demo.int_of_str Demo.first_connection
           [TransportClosed; Call_connect; Run 2 (A_handshake (Returned (Demo.conn 2)))]
           (Demo.start true) 1 (ExponentialBackoff.init 7 Demo.cap)
           (Demo.text_msg (Raised ValueError)) ValueError);
    reflexivity.
Defined.
